(** * IdeaSpark: the 3D mind-map engine of [src/components/MindMap3D.tsx]

    A shallow embedding of the sphere layout, the projector, the depth sort
    and the interaction state machine of the [MindMap3D] component, and the
    properties of them that the specification states.

    JavaScript numbers are IEEE-754 doubles.  The component is embedded once,
    over an interface [JSNumber] of the arithmetic it uses; the interface is
    then instantiated twice:
    - [Exact]: the real numbers (exact arithmetic, where algebraic
      identities such as [cos² + sin² = 1] hold);
    - [Float64]: the primitive binary64 floats (the arithmetic the program
      really runs, with NaN and rounding), with [Math.cos] and [Math.sin]
      left as parameters. *)

From Stdlib Require Import List String Bool Arith ZArith Lia.
From Stdlib Require Import Sorted Permutation.
From Stdlib Require Import Floats.
From Stdlib Require Import Reals Lra.
Import ListNotations.

Set Implicit Arguments.
(* Decimal literals are rounded to the nearest double, as in the source. *)
Set Warnings "-inexact-float".

(** ** The numbers of the program *)

Class JSNumber : Type := {
  num : Type;
  (** integer literals and loop counters *)
  of_nat : nat -> num;
  nadd : num -> num -> num;
  nsub : num -> num -> num;
  nmul : num -> num -> num;
  ndiv : num -> num -> num;
  (** [a < b] *)
  nltb : num -> num -> bool;
  Math_PI : num;
  Math_sqrt : num -> num;
  Math_cos : num -> num;
  Math_sin : num -> num;
  Math_floor : num -> num;
  Math_max : num -> num -> num;
  Math_min : num -> num -> num
}.

Declare Scope num_scope.
Delimit Scope num_scope with num.
Bind Scope num_scope with num.
Infix "+" := nadd : num_scope.
Infix "-" := nsub : num_scope.
Infix "*" := nmul : num_scope.
Infix "/" := ndiv : num_scope.
Infix "<?" := nltb : num_scope.

(** ** Data model ([src/types.ts], [Point3D]) *)

Record Idea : Type := {
  idea_id : string;
  phrase : string;
  category : string;
  description : string
}.

Section Engine.

Context {N : JSNumber}.
Local Open Scope num_scope.

(** Decimal literals of the source.  A decimal literal denotes the double
    nearest to it, which is also what the correctly rounded quotient of two
    small integers gives; each instance below checks these against its own
    literals. *)
Definition lit_0_2 : num := of_nat 2 / of_nat 10.
Definition lit_0_5 : num := of_nat 5 / of_nat 10.
Definition lit_2_5 : num := of_nat 25 / of_nat 10.
Definition lit_0_001 : num := of_nat 1 / of_nat 1000.
Definition lit_0_003 : num := of_nat 3 / of_nat 1000.
Definition lit_0_005 : num := of_nat 5 / of_nat 1000.

(** [interface Point3D]: [idea] and [isCenter] are optional fields. *)
Record Point3D : Type := {
  x : num;
  y : num;
  z : num;
  idea : option Idea;
  id : string;
  isCenter : option bool
}.

(** Truthiness of [p.isCenter]. *)
Definition is_center (c : option bool) : bool :=
  match c with Some true => true | _ => false end.

(** Configuration *)
Definition BASE_RADIUS : num := of_nat 420.
Definition FOCAL_LENGTH : num := of_nat 900.

(** ** Sphere layout (the [points] memo) *)

Definition center : Point3D :=
  {| x := of_nat 0; y := of_nat 0; z := of_nat 0;
     idea := None; id := "center"; isCenter := Some true |}.

(** Golden angle *)
Definition phi : num := Math_PI * (of_nat 3 - Math_sqrt (of_nat 5)).

(** One iteration of the loop body, for index [i] and item [ideas[i]]. *)
Definition satellite (count i : nat) (it : Idea) : Point3D :=
  let y := of_nat 1 - (of_nat i / (of_nat count - of_nat 1)) * of_nat 2 in
  let radius := Math_sqrt (of_nat 1 - y * y) in
  let theta := phi * of_nat i in
  let x := Math_cos theta * radius in
  let z := Math_sin theta * radius in
  {| x := x * BASE_RADIUS;
     y := y * BASE_RADIUS;
     z := z * BASE_RADIUS;
     idea := Some it;
     id := idea_id it;
     isCenter := None |}.

(** [for (let i = 0; i < count; i++) { ... pts.push(...) }]: [n] is the number
    of iterations left, [count - i].  Reading [ideas[i].id] past the end of
    the array would throw; the loop never gets there, and the model stops. *)
Fixpoint for_loop (ideas : list Idea) (count n i : nat) (pts : list Point3D)
  : list Point3D :=
  match n with
  | O => pts
  | S n' =>
      match nth_error ideas i with
      | Some it => for_loop ideas count n' (S i) (pts ++ [satellite count i it])
      | None => pts
      end
  end.

Definition points (ideas : list Idea) : list Point3D :=
  let count := List.length ideas in
  for_loop ideas count count 0 [center].

(** ** Component state *)

Record Rotation : Type := { rot_x : num; rot_y : num }.
Record Mouse : Type := { mouse_x : num; mouse_y : num }.

Record State : Type := {
  rotation : Rotation;
  zoomScale : num;
  isDragging : bool;
  lastMouseRef : Mouse;
  autoRotate : bool;
  selectedIdea : option Idea;
  (** the phrases [onSetAsCore] was called with, oldest first *)
  onSetAsCore_calls : list string
}.

Definition initial : State :=
  {| rotation := {| rot_x := lit_0_2; rot_y := of_nat 0 |};
     zoomScale := of_nat 1;
     isDragging := false;
     lastMouseRef := {| mouse_x := of_nat 0; mouse_y := of_nat 0 |};
     autoRotate := true;
     selectedIdea := None;
     onSetAsCore_calls := [] |}.

Definition setRotation (f : Rotation -> Rotation) (s : State) : State :=
  {| rotation := f (rotation s); zoomScale := zoomScale s;
     isDragging := isDragging s; lastMouseRef := lastMouseRef s;
     autoRotate := autoRotate s; selectedIdea := selectedIdea s;
     onSetAsCore_calls := onSetAsCore_calls s |}.

Definition setZoomScale (f : num -> num) (s : State) : State :=
  {| rotation := rotation s; zoomScale := f (zoomScale s);
     isDragging := isDragging s; lastMouseRef := lastMouseRef s;
     autoRotate := autoRotate s; selectedIdea := selectedIdea s;
     onSetAsCore_calls := onSetAsCore_calls s |}.

Definition setIsDragging (b : bool) (s : State) : State :=
  {| rotation := rotation s; zoomScale := zoomScale s;
     isDragging := b; lastMouseRef := lastMouseRef s;
     autoRotate := autoRotate s; selectedIdea := selectedIdea s;
     onSetAsCore_calls := onSetAsCore_calls s |}.

Definition setLastMouse (m : Mouse) (s : State) : State :=
  {| rotation := rotation s; zoomScale := zoomScale s;
     isDragging := isDragging s; lastMouseRef := m;
     autoRotate := autoRotate s; selectedIdea := selectedIdea s;
     onSetAsCore_calls := onSetAsCore_calls s |}.

Definition setAutoRotate (b : bool) (s : State) : State :=
  {| rotation := rotation s; zoomScale := zoomScale s;
     isDragging := isDragging s; lastMouseRef := lastMouseRef s;
     autoRotate := b; selectedIdea := selectedIdea s;
     onSetAsCore_calls := onSetAsCore_calls s |}.

Definition setSelectedIdea (o : option Idea) (s : State) : State :=
  {| rotation := rotation s; zoomScale := zoomScale s;
     isDragging := isDragging s; lastMouseRef := lastMouseRef s;
     autoRotate := autoRotate s; selectedIdea := o;
     onSetAsCore_calls := onSetAsCore_calls s |}.

(** The external callback [onSetAsCore(keyword)]: the call is recorded. *)
Definition onSetAsCore (keyword : string) (s : State) : State :=
  {| rotation := rotation s; zoomScale := zoomScale s;
     isDragging := isDragging s; lastMouseRef := lastMouseRef s;
     autoRotate := autoRotate s; selectedIdea := selectedIdea s;
     onSetAsCore_calls := onSetAsCore_calls s ++ [keyword] |}.

(** Truthiness of [selectedIdea] (an object or [null]). *)
Definition truthy (o : option Idea) : bool :=
  match o with Some _ => true | None => false end.

(** ** Animation loop: one call of [animate] *)
Definition animate (s : State) : State :=
  if autoRotate s && negb (isDragging s) && negb (truthy (selectedIdea s))
  then setRotation (fun prev =>
         {| rot_x := rot_x prev; rot_y := rot_y prev + lit_0_003 |}) s
  else s.

(** ** Interaction handlers *)

Definition handleMouseDown (clientX clientY : num) (s : State) : State :=
  if truthy (selectedIdea s) then s
  else
    setLastMouse {| mouse_x := clientX; mouse_y := clientY |}
      (setAutoRotate false (setIsDragging true s)).

Definition handleMouseMove (clientX clientY : num) (s : State) : State :=
  if negb (isDragging s) then s
  else
    let deltaX := clientX - mouse_x (lastMouseRef s) in
    let deltaY := clientY - mouse_y (lastMouseRef s) in
    setLastMouse {| mouse_x := clientX; mouse_y := clientY |}
      (setRotation (fun prev =>
         {| rot_x := rot_x prev - deltaY * lit_0_005;
            rot_y := rot_y prev + deltaX * lit_0_005 |}) s).

Definition handleMouseUp (s : State) : State :=
  let s1 := setIsDragging false s in
  if negb (truthy (selectedIdea s)) then setAutoRotate true s1 else s1.

Definition handleWheel (deltaY : num) (s : State) : State :=
  setZoomScale (fun prev =>
    let newScale := prev - deltaY * lit_0_001 in
    Math_min (Math_max newScale lit_0_5) lit_2_5) s.

Definition handleNodeClick (p_isCenter : option bool) (p_idea : option Idea)
    (s : State) : State :=
  if is_center p_isCenter then setAutoRotate true (setSelectedIdea None s)
  else
    match p_idea with
    | Some it => setAutoRotate false (setSelectedIdea (Some it) s)
    | None => s
    end.

Definition handleBackgroundClick (s : State) : State :=
  if truthy (selectedIdea s)
  then setAutoRotate true (setSelectedIdea None s)
  else s.

(** The two buttons of the detail overlay, which is rendered only while
    [selectedIdea] is set. *)
Definition closeButtonClick (s : State) : State :=
  match selectedIdea s with
  | Some _ => setAutoRotate true (setSelectedIdea None s)
  | None => s
  end.

Definition setAsCoreButtonClick (s : State) : State :=
  match selectedIdea s with
  | Some it => setSelectedIdea None (onSetAsCore (phrase it) s)
  | None => s
  end.

(** ** Projection *)

Record Projection : Type := {
  proj_x : num;
  proj_y : num;
  proj_scale : num;
  proj_zIndex : num;
  proj_rawZ : num
}.

Definition project (s : State) (point : Point3D) (width height : num)
  : Projection :=
  let scaledX := x point * zoomScale s in
  let scaledY := y point * zoomScale s in
  let scaledZ := z point * zoomScale s in
  let x1 := scaledX * Math_cos (rot_y (rotation s))
            - scaledZ * Math_sin (rot_y (rotation s)) in
  let z1 := scaledZ * Math_cos (rot_y (rotation s))
            + scaledX * Math_sin (rot_y (rotation s)) in
  let y1 := scaledY * Math_cos (rot_x (rotation s))
            - z1 * Math_sin (rot_x (rotation s)) in
  let z2 := z1 * Math_cos (rot_x (rotation s))
            + scaledY * Math_sin (rot_x (rotation s)) in
  let scale := FOCAL_LENGTH / (FOCAL_LENGTH + z2) in
  let x2d := x1 * scale + width / of_nat 2 in
  let y2d := y1 * scale + height / of_nat 2 in
  {| proj_x := x2d; proj_y := y2d; proj_scale := scale;
     proj_zIndex := Math_floor (scale * of_nat 1000); proj_rawZ := z2 |}.

(** [{...p, ...project(p, width, height)}]: the projection's [x] and [y]
    replace the point's. *)
Record ProjectedPoint : Type := {
  pp_x : num;
  pp_y : num;
  pp_z : num;
  pp_idea : option Idea;
  pp_id : string;
  pp_isCenter : option bool;
  pp_scale : num;
  pp_zIndex : num;
  pp_rawZ : num
}.

Definition spread (p : Point3D) (q : Projection) : ProjectedPoint :=
  {| pp_x := proj_x q; pp_y := proj_y q; pp_z := z p;
     pp_idea := idea p; pp_id := id p; pp_isCenter := isCenter p;
     pp_scale := proj_scale q; pp_zIndex := proj_zIndex q;
     pp_rawZ := proj_rawZ q |}.

(** ** Depth sort

    [Array.prototype.sort] with a comparator is a stable sort: an element
    moves behind another only when the comparator is positive.  It is
    modelled by the stable insertion sort. *)
Section Sort.
Variable A : Type.
Variable compareFn : A -> A -> num.

Fixpoint sort_insert (a : A) (l : list A) : list A :=
  match l with
  | [] => [a]
  | b :: l' =>
      if of_nat 0 <? compareFn a b then b :: sort_insert a l'
      else a :: l
  end.

Definition Array_sort (l : list A) : list A :=
  fold_right sort_insert [] l.
End Sort.

Definition projectedPoints (s : State) (ideas : list Idea)
    (width height : num) : list ProjectedPoint :=
  Array_sort (fun a b => pp_zIndex a - pp_zIndex b)
    (map (fun p => spread p (project s p width height)) (points ideas)).

(** ** Events *)

Inductive Event : Type :=
| MouseDown (clientX clientY : num)    (* onMouseDown, onTouchStart *)
| MouseMove (clientX clientY : num)    (* onMouseMove, onTouchMove *)
| MouseUp                              (* onMouseUp, onMouseLeave, onTouchEnd *)
| Wheel (deltaY : num)
| NodeClick (p_isCenter : option bool) (p_idea : option Idea)
| BackgroundClick
| CloseClick
| SetAsCoreClick
| Frame.                               (* one animation frame *)

Definition step (s : State) (e : Event) : State :=
  match e with
  | MouseDown cx cy => handleMouseDown cx cy s
  | MouseMove cx cy => handleMouseMove cx cy s
  | MouseUp => handleMouseUp s
  | Wheel d => handleWheel d s
  | NodeClick c i => handleNodeClick c i s
  | BackgroundClick => handleBackgroundClick s
  | CloseClick => closeButtonClick s
  | SetAsCoreClick => setAsCoreButtonClick s
  | Frame => animate s
  end.

Definition run (s : State) (evs : list Event) : State :=
  fold_left step evs s.

End Engine.

(** ** Exact arithmetic: the real numbers *)

Module Exact.

Definition Rltb (a b : R) : bool := if Rlt_dec a b then true else false.

(** Division of reals is total, with [x / 0 = 0], where a double division
    by zero gives an infinity or NaN.  The layout of a single item divides
    [0] by [0]: what is proved below of the coordinates of satellites in
    exact arithmetic is stated for item lists that are not a single item. *)
#[export] Instance real_number : JSNumber := {|
  num := R;
  of_nat := fun n => IZR (Z.of_nat n);
  nadd := Rplus;
  nsub := Rminus;
  nmul := Rmult;
  ndiv := Rdiv;
  nltb := Rltb;
  Math_PI := PI;
  Math_sqrt := sqrt;
  Math_cos := cos;
  Math_sin := sin;
  Math_floor := fun v => IZR (Zfloor v);
  Math_max := Rmax;
  Math_min := Rmin
|}.

End Exact.

(** ** Binary64 arithmetic: the primitive floats *)

Module Float64.

Local Open Scope float_scope.

Definition float_of_nat (n : nat) : float :=
  PrimFloat.of_uint63 (Uint63.of_Z (Z.of_nat n)).

(** [Math.max] and [Math.min]: NaN if an argument is NaN, and [-0 < +0]. *)
Definition float_max (a b : float) : float :=
  if is_nan a || is_nan b then nan
  else if a <? b then b
  else if b <? a then a
  else if get_sign a then b else a.

Definition float_min (a b : float) : float :=
  if is_nan a || is_nan b then nan
  else if a <? b then a
  else if b <? a then b
  else if get_sign a then a else b.

(** [Math.floor]: a double of magnitude at least [2^52] is an integer (or
    infinite, or NaN) and is returned as it is; below, adding and removing
    [2^52] rounds to the nearest integer, which is then corrected. *)
Definition two52 : float := 4503599627370496.

Definition float_floor (v : float) : float :=
  if abs v <? two52 then
    if is_zero v then v
    else
      let r := if v <? 0 then (v - two52) + two52 else (v + two52) - two52 in
      if v <? r then r - 1 else r
  else v.

Section Host.

(** [Math.cos] and [Math.sin] are left to the host; the standard only asks
    for an approximation. *)
Variables host_cos host_sin : float -> float.

Definition float_number : JSNumber := {|
  num := float;
  of_nat := float_of_nat;
  nadd := PrimFloat.add;
  nsub := PrimFloat.sub;
  nmul := PrimFloat.mul;
  ndiv := PrimFloat.div;
  nltb := PrimFloat.ltb;
  Math_PI := 3.141592653589793;
  Math_sqrt := PrimFloat.sqrt;
  Math_cos := host_cos;
  Math_sin := host_sin;
  Math_floor := float_floor;
  Math_max := float_max;
  Math_min := float_min
|}.

End Host.

End Float64.

(** * Properties *)

(** ** The literals denote what the source writes *)

Module ExactLiterals.
Import Exact.
Local Open Scope R_scope.

Lemma exact_literals :
  @lit_0_2 real_number = 0.2 /\ @lit_0_5 real_number = 0.5 /\
  @lit_2_5 real_number = 2.5 /\ @lit_0_001 real_number = 0.001 /\
  @lit_0_003 real_number = 0.003 /\ @lit_0_005 real_number = 0.005.
Proof. cbn. repeat split; lra. Qed.

End ExactLiterals.

Module Float64Literals.
Import Float64.
Local Open Scope float_scope.

Lemma float64_literals (c s : float -> float) :
  @lit_0_2 (float_number c s) = 0.2 /\ @lit_0_5 (float_number c s) = 0.5 /\
  @lit_2_5 (float_number c s) = 2.5 /\ @lit_0_001 (float_number c s) = 0.001 /\
  @lit_0_003 (float_number c s) = 0.003 /\ @lit_0_005 (float_number c s) = 0.005.
Proof. vm_compute. repeat split; reflexivity. Qed.

Example floor_examples :
  float_floor 1875 = 1875 /\ float_floor 681.8181818181819 = 681 /\
  float_floor 0.3 = 0 /\ float_floor (-0.3) = -1 /\
  float_floor (-2.5) = -3 /\ float_floor 1101.999999 = 1101 /\
  float_floor 9007199254740992 = 9007199254740992 /\
  is_nan (float_floor nan) = true /\ float_floor infinity = infinity.
Proof. vm_compute. repeat split; reflexivity. Qed.

Example max_min_examples :
  float_max 3 0.5 = 3 /\ float_min 3 2.5 = 2.5 /\
  float_max (-0) 0 = 0 /\ float_min 0 (-0) = (-0) /\
  is_nan (float_max nan 0.5) = true /\ is_nan (float_min 1 nan) = true /\
  float_max neg_infinity 0.5 = 0.5.
Proof. vm_compute. repeat split; reflexivity. Qed.

End Float64Literals.

(** ** Properties that hold in any arithmetic *)

Section Generic.

Context {N : JSNumber}.
Local Open Scope num_scope.

(** *** The layout loop *)

(** What the loop pushes for the items [its], the first of them at index [i]. *)
Fixpoint satellites (count i : nat) (its : list Idea) : list Point3D :=
  match its with
  | [] => []
  | it :: rest => satellite count i it :: satellites count (S i) rest
  end.

Lemma for_loop_satellites (count : nat) (rest : list Idea) :
  forall (done : list Idea) (pts : list Point3D),
    for_loop (done ++ rest) count (List.length rest) (List.length done) pts
    = pts ++ satellites count (List.length done) rest.
Proof.
  induction rest as [|it rest IH]; intros done pts; cbn [for_loop satellites List.length].
  - now rewrite app_nil_r.
  - rewrite nth_error_app2 by lia.
    rewrite Nat.sub_diag. cbn [nth_error].
    replace (done ++ it :: rest) with ((done ++ [it]) ++ rest)
      by now rewrite <- app_assoc.
    replace (S (List.length done)) with (List.length (done ++ [it]))
      by (rewrite length_app; cbn; lia).
    rewrite IH, <- app_assoc. reflexivity.
Qed.

Lemma points_satellites (ideas : list Idea) :
  points ideas = center :: satellites (List.length ideas) 0 ideas.
Proof.
  unfold points. exact (for_loop_satellites (List.length ideas) ideas [] [center]).
Qed.

Lemma satellites_length (count : nat) (its : list Idea) :
  forall i, List.length (satellites count i its) = List.length its.
Proof. induction its as [|it its IH]; intro i; cbn; [|rewrite IH]; reflexivity. Qed.

Lemma satellites_items (count : nat) (its : list Idea) :
  forall i,
    Forall2 (fun p it => idea p = Some it /\ id p = idea_id it /\
                         is_center (isCenter p) = false)
            (satellites count i its) its.
Proof.
  induction its as [|it its IH]; intro i; cbn [satellites]; constructor.
  - cbn. auto.
  - apply IH.
Qed.

Lemma satellites_In (count : nat) (its : list Idea) (p : Point3D) :
  forall i, In p (satellites count i its) ->
    exists j it, (i <= j < i + List.length its)%nat /\ p = satellite count j it.
Proof.
  induction its as [|it its IH]; intros i H; cbn in H; [contradiction|].
  destruct H as [<-|H].
  - exists i, it. cbn. split; [lia|reflexivity].
  - destruct (IH _ H) as (j & it' & Hj & ->).
    exists j, it'. cbn. split; [lia|reflexivity].
Qed.

(** C7.  For every list of N items the layout has exactly N+1 points; the
    first is the only one with [isCenter] set and sits at the origin; the
    others follow the items in input order, each holding its item and the
    item's id. *)
Theorem C7_layout_shape (ideas : list Idea) :
  List.length (points ideas) = S (List.length ideas) /\
  List.length (filter (fun p => is_center (isCenter p)) (points ideas)) = 1%nat /\
  exists sats,
    points ideas = center :: sats /\
    isCenter center = Some true /\
    (x center, y center, z center) = (of_nat 0, of_nat 0, of_nat 0) /\
    Forall2 (fun p it => idea p = Some it /\ id p = idea_id it /\
                         is_center (isCenter p) = false) sats ideas.
Proof.
  rewrite points_satellites.
  pose proof (satellites_items (List.length ideas) ideas 0) as Hall.
  split; [|split].
  - cbn. now rewrite satellites_length.
  - cbn. replace (filter _ _) with (@nil Point3D); [reflexivity|].
    symmetry. induction Hall as [|p it sats its (_ & _ & Hc) _ IH]; cbn.
    + reflexivity.
    + now rewrite Hc.
  - eexists. repeat split. exact Hall.
Qed.

(** *** The projector, as the specification words it *)

Definition Vec3 : Type := (num * num * num)%type.

(** 1. Scale all three coordinates by [zoom]. *)
Definition scale_by_zoom (zoom : num) (v : Vec3) : Vec3 :=
  let '(a, b, c) := v in (a * zoom, b * zoom, c * zoom).

(** 2. Rotate about the Y axis: [(x', z') = (x·cosθy − z·sinθy, z·cosθy + x·sinθy)]. *)
Definition rotate_about_Y (thetaY : num) (v : Vec3) : Vec3 :=
  let '(a, b, c) := v in
  (a * Math_cos thetaY - c * Math_sin thetaY, b,
   c * Math_cos thetaY + a * Math_sin thetaY).

(** 3. Rotate about the X axis: [(y', z'') = (y·cosθx − z'·sinθx, z'·cosθx + y·sinθx)]. *)
Definition rotate_about_X (thetaX : num) (v : Vec3) : Vec3 :=
  let '(a, b, c) := v in
  (a, b * Math_cos thetaX - c * Math_sin thetaX,
   c * Math_cos thetaX + b * Math_sin thetaX).

Record Screen : Type := {
  screenX : num;
  screenY : num;
  perspectiveScale : num;
  rawRotatedZ : num
}.

(** 4. Perspective divide. *)
Definition perspective_divide (width height : num) (v : Vec3) : Screen :=
  let '(a, b, c) := v in
  let ps := FOCAL_LENGTH / (FOCAL_LENGTH + c) in
  {| screenX := a * ps + width / of_nat 2;
     screenY := b * ps + height / of_nat 2;
     perspectiveScale := ps;
     rawRotatedZ := c |}.

Definition projector_pipeline (rotationX rotationY zoom width height : num)
    (v : Vec3) : Screen :=
  perspective_divide width height
    (rotate_about_X rotationX (rotate_about_Y rotationY (scale_by_zoom zoom v))).

(** C6.  [project] is the four-stage pipeline: zoom scaling, rotation about
    Y, rotation about X, perspective divide, and it returns the rotated
    depth as [rawZ]. *)
Theorem C6_project_pipeline (s : State) (p : Point3D) (width height : num) :
  let out := projector_pipeline (rot_x (rotation s)) (rot_y (rotation s))
               (zoomScale s) width height (x p, y p, z p) in
  proj_x (project s p width height) = screenX out /\
  proj_y (project s p width height) = screenY out /\
  proj_scale (project s p width height) = perspectiveScale out /\
  proj_rawZ (project s p width height) = rawRotatedZ out /\
  proj_zIndex (project s p width height)
    = Math_floor (perspectiveScale out * of_nat 1000).
Proof. cbv zeta. repeat split. Qed.

(** *** The interaction flags *)

(** The three interaction states, as the handlers test them: [animate]
    rotates under the first, [handleMouseMove] drags under the second, the
    detail overlay is shown under the third. *)
Definition AutoRotating (s : State) : bool :=
  autoRotate s && negb (isDragging s) && negb (truthy (selectedIdea s)).
Definition Dragging (s : State) : bool := isDragging s.
Definition Inspecting (s : State) : bool := truthy (selectedIdea s).

Definition active_states (s : State) : nat :=
  (if AutoRotating s then 1 else 0) + (if Dragging s then 1 else 0)
  + (if Inspecting s then 1 else 0).

(** A click on a node reaches the component after the pointer was released:
    every [NodeClick] of the sequence finds [isDragging] unset. *)
Fixpoint clicks_after_release (s : State) (evs : list Event) : bool :=
  match evs with
  | [] => true
  | e :: rest =>
      match e with
      | NodeClick _ _ => negb (isDragging s)
      | _ => true
      end && clicks_after_release (step s e) rest
  end.

Definition is_SetAsCoreClick (e : Event) : bool :=
  match e with SetAsCoreClick => true | _ => false end.

(** The flag triples [(autoRotate, isDragging, selection held)] the
    controller keeps to. *)
Definition flags (s : State) : bool * bool * bool :=
  (autoRotate s, isDragging s, truthy (selectedIdea s)).

Definition one_state (s : State) : Prop :=
  flags s = (true, false, false) \/ flags s = (false, true, false) \/
  flags s = (false, false, true).

Definition at_most_one_state (s : State) : Prop :=
  one_state s \/ flags s = (false, false, false).

Ltac flag_cases s :=
  unfold at_most_one_state, one_state, flags in *;
  destruct s as [rot zm [|] lm [|] [sel|] calls]; cbn in *.

Ltac flag_crush :=
  repeat match goal with
         | H : _ \/ _ |- _ => destruct H
         | H : (_, _, _) = (_, _, _) |- _ => discriminate H
         | H : false = true |- _ => discriminate H
         | H : true = false |- _ => discriminate H
         end;
  auto 6.

Lemma step_at_most_one (s : State) (e : Event) :
  at_most_one_state s ->
  clicks_after_release s [e] = true ->
  at_most_one_state (step s e).
Proof.
  intros H Hc. destruct e as [cx cy|cx cy| |d|c i| | | |]; cbn in Hc;
    cbn [step]; unfold handleMouseDown, handleMouseMove, handleMouseUp,
      handleWheel, handleNodeClick, handleBackgroundClick, closeButtonClick,
      setAsCoreButtonClick, animate;
    try (destruct (is_center c); [|destruct i]);
    flag_cases s; flag_crush.
Qed.

Lemma step_one (s : State) (e : Event) :
  one_state s ->
  clicks_after_release s [e] = true ->
  is_SetAsCoreClick e = false ->
  one_state (step s e).
Proof.
  intros H Hc He. destruct e as [cx cy|cx cy| |d|c i| | | |]; cbn in Hc, He;
    cbn [step]; unfold handleMouseDown, handleMouseMove, handleMouseUp,
      handleWheel, handleNodeClick, handleBackgroundClick, closeButtonClick,
      setAsCoreButtonClick, animate;
    try (destruct (is_center c); [|destruct i]);
    flag_cases s; flag_crush.
Qed.

Lemma run_at_most_one (evs : list Event) :
  forall s, at_most_one_state s -> clicks_after_release s evs = true ->
    at_most_one_state (run s evs).
Proof.
  induction evs as [|e evs IH]; intros s H Hc; cbn in *; [exact H|].
  apply andb_prop in Hc as [He Hc].
  apply IH; [|exact Hc].
  apply step_at_most_one; [exact H|]. cbn. now rewrite He.
Qed.

Lemma run_one (evs : list Event) :
  forall s, one_state s -> clicks_after_release s evs = true ->
    existsb is_SetAsCoreClick evs = false ->
    one_state (run s evs).
Proof.
  induction evs as [|e evs IH]; intros s H Hc Hn; cbn in *; [exact H|].
  apply andb_prop in Hc as [He Hc].
  apply orb_false_elim in Hn as [Hn1 Hn2].
  apply IH; [|exact Hc|exact Hn2].
  apply step_one; [exact H| |exact Hn1]. cbn. now rewrite He.
Qed.

Lemma one_state_active (s : State) : one_state s -> active_states s = 1%nat.
Proof.
  unfold active_states, AutoRotating, Dragging, Inspecting.
  intro H. flag_cases s; flag_crush.
Qed.

Lemma at_most_one_state_active (s : State) :
  at_most_one_state s -> (active_states s <= 1)%nat.
Proof.
  unfold active_states, AutoRotating, Dragging, Inspecting.
  intro H. flag_cases s; flag_crush.
Qed.

(** C4 (as amended).  Along every event sequence in which node clicks arrive
    after the pointer was released, the flags never encode two interaction
    states at once; and as long as the sequence has no "set as core" click,
    they encode exactly one. *)
Theorem C4_flags_at_most_one_state (evs : list Event) :
  clicks_after_release initial evs = true ->
  at_most_one_state (run initial evs) /\
  (active_states (run initial evs) <= 1)%nat /\
  (existsb is_SetAsCoreClick evs = false ->
   one_state (run initial evs) /\ active_states (run initial evs) = 1%nat).
Proof.
  intro Hc.
  assert (H0 : one_state initial) by (left; reflexivity).
  assert (H1 : at_most_one_state (run initial evs))
    by (apply run_at_most_one; [left; exact H0|exact Hc]).
  split; [exact H1|split; [now apply at_most_one_state_active|]].
  intro Hn.
  assert (H2 : one_state (run initial evs)) by now apply run_one.
  split; [exact H2|now apply one_state_active].
Qed.

(** C1.  The "set as core" button, pressed while an item is inspected, calls
    [onSetAsCore] once, with the phrase of that item, and clears the
    selection; but it leaves [autoRotate] unset, so that the component is not
    auto-rotating afterwards and animation frames do nothing, whereas the
    close button of the same overlay does resume the rotation. *)
Theorem C1_set_as_core_keeps_rotation_suspended (s : State) (it : Idea) :
  selectedIdea s = Some it ->
  autoRotate s = false ->
  let s' := setAsCoreButtonClick s in
  onSetAsCore_calls s' = onSetAsCore_calls s ++ [phrase it] /\
  selectedIdea s' = None /\
  autoRotate s' = false /\
  AutoRotating s' = false /\
  animate s' = s' /\
  autoRotate (closeButtonClick s) = true.
Proof.
  intros Hsel Hauto. unfold setAsCoreButtonClick, closeButtonClick, AutoRotating, animate.
  rewrite Hsel. cbn. rewrite Hauto. cbn. repeat split.
Qed.

End Generic.

(** ** Properties in exact arithmetic *)

Module ExactProps.
Import Exact.
Local Open Scope R_scope.

Lemma Rltb_true (a b : R) : a < b -> Rltb a b = true.
Proof. intro H. unfold Rltb. destruct (Rlt_dec a b); [reflexivity|contradiction]. Qed.

Lemma Rltb_false (a b : R) : b <= a -> Rltb a b = false.
Proof. intro H. unfold Rltb. destruct (Rlt_dec a b); [lra|reflexivity]. Qed.

(** *** Zoom *)

(** [clamp(v, lo, hi)], as the specification uses it. *)
Definition clamp (v lo hi : R) : R :=
  if Rlt_dec v lo then lo else if Rlt_dec hi v then hi else v.

Lemma min_max_clamp (v lo hi : R) :
  lo <= hi -> Rmin (Rmax v lo) hi = clamp v lo hi.
Proof.
  intro H. unfold clamp, Rmin, Rmax.
  destruct (Rlt_dec v lo), (Rlt_dec hi v), (Rle_dec v lo);
    destruct (Rle_dec _ hi); lra.
Qed.

Lemma clamp_range (v lo hi : R) : lo <= hi -> lo <= clamp v lo hi <= hi.
Proof.
  intro H. unfold clamp. destruct (Rlt_dec v lo), (Rlt_dec hi v); lra.
Qed.

Lemma handleWheel_zoom (s : State) (deltaY : R) :
  zoomScale (handleWheel deltaY s)
  = clamp (zoomScale s - deltaY * 0.001) 0.5 2.5.
Proof.
  cbn. rewrite min_max_clamp by lra. f_equal; lra.
Qed.

Lemma step_zoom (s : State) (e : Event) :
  zoomScale (step s e) = zoomScale s \/
  exists deltaY, e = Wheel deltaY /\
    zoomScale (step s e) = clamp (zoomScale s - deltaY * 0.001) 0.5 2.5.
Proof.
  destruct e as [cx cy|cx cy| |d|c i| | | |].
  5: destruct c as [[|]|], i.
  all: try (right; eexists; split; [reflexivity|apply handleWheel_zoom]).
  all: left; cbn;
    unfold handleMouseDown, handleMouseMove, handleMouseUp, handleBackgroundClick,
      closeButtonClick, setAsCoreButtonClick, animate;
    repeat match goal with
           | |- context [if ?b then _ else _] => destruct b
           | |- context [match ?o with Some _ => _ | None => _ end] => destruct o
           end; reflexivity.
Qed.

(** C5.  Whatever events arrive (wheel events among them), a zoom that
    starts in [0.5, 2.5] stays there; a wheel event sets it to
    [clamp(zoom - deltaY·0.001, 0.5, 2.5)]; and [deltaY = -2000] at zoom 1
    gives 2.5. *)
Theorem C5_zoom_range (s : State) (evs : list Event) :
  0.5 <= zoomScale s <= 2.5 ->
  0.5 <= zoomScale (run s evs) <= 2.5 /\
  (forall deltaY, zoomScale (handleWheel deltaY s)
                  = clamp (zoomScale s - deltaY * 0.001) 0.5 2.5) /\
  (zoomScale s = 1 -> zoomScale (handleWheel (-2000) s) = 2.5).
Proof.
  intro H. split; [|split].
  - revert s H. induction evs as [|e evs IH]; intros s H; [exact H|].
    cbn [run fold_left]. apply IH.
    destruct (step_zoom s e) as [->|(d & _ & ->)]; [exact H|].
    apply clamp_range. lra.
  - intro d. apply handleWheel_zoom.
  - intro H1. rewrite handleWheel_zoom, H1. unfold clamp.
    destruct (Rlt_dec (1 - -2000 * 0.001) 0.5); [lra|].
    destruct (Rlt_dec 2.5 (1 - -2000 * 0.001)); lra.
Qed.

(** C10.  In every state of the component a wheel event sets the zoom to
    [clamp(zoom - deltaY·0.001, 0.5, 2.5)] and changes nothing else. *)
Theorem C10_wheel_frame (s : State) (deltaY : R) :
  let s' := handleWheel deltaY s in
  zoomScale s' = clamp (zoomScale s - deltaY * 0.001) 0.5 2.5 /\
  rotation s' = rotation s /\
  (AutoRotating s', Dragging s', Inspecting s')
    = (AutoRotating s, Dragging s, Inspecting s) /\
  (autoRotate s', isDragging s') = (autoRotate s, isDragging s) /\
  selectedIdea s' = selectedIdea s /\
  lastMouseRef s' = lastMouseRef s /\
  onSetAsCore_calls s' = onSetAsCore_calls s.
Proof.
  cbv zeta. split; [apply handleWheel_zoom|]. repeat split.
Qed.

(** *** Animation *)

Lemma animate_rotating (s : State) :
  AutoRotating s = true ->
  AutoRotating (animate s) = true /\
  rot_y (rotation (animate s)) = rot_y (rotation s) + 0.003 /\
  rot_x (rotation (animate s)) = rot_x (rotation s) /\
  zoomScale (animate s) = zoomScale s.
Proof.
  unfold animate, AutoRotating. intro H. rewrite H. cbn.
  repeat split; solve [exact H|lra].
Qed.

Lemma animate_idle (s : State) : AutoRotating s = false -> animate s = s.
Proof. unfold animate, AutoRotating. now intros ->. Qed.

Lemma frames_rotating (k : nat) :
  forall s : State, AutoRotating s = true ->
    rot_y (rotation (run s (repeat Frame k))) = rot_y (rotation s) + 0.003 * INR k /\
    rot_x (rotation (run s (repeat Frame k))) = rot_x (rotation s) /\
    zoomScale (run s (repeat Frame k)) = zoomScale s.
Proof.
  induction k as [|k IH]; intros s H.
  - cbn. repeat split. lra.
  - cbn [repeat run fold_left step].
    destruct (animate_rotating s H) as (H1 & Hy & Hx & Hz).
    destruct (IH _ H1) as (IHy & IHx & IHz).
    fold (run (animate s) (repeat Frame k)).
    rewrite IHy, IHx, IHz, Hy, Hx, Hz, S_INR. repeat split. lra.
Qed.

Lemma frames_idle (s : State) (k : nat) :
  AutoRotating s = false -> run s (repeat Frame k) = s.
Proof.
  intro H. induction k as [|k IH]; [reflexivity|].
  cbn [repeat run fold_left step]. rewrite (animate_idle s H). exact IH.
Qed.

(** C9.  While auto-rotating, [k] animation frames add [0.003·k] to
    [rotation.y] and leave [rotation.x] and the zoom as they were; in any
    other state, animation frames change nothing. *)
Theorem C9_auto_rotation (s : State) (k : nat) :
  (AutoRotating s = true ->
   rot_y (rotation (run s (repeat Frame k))) = rot_y (rotation s) + 0.003 * INR k /\
   rot_x (rotation (run s (repeat Frame k))) = rot_x (rotation s) /\
   zoomScale (run s (repeat Frame k)) = zoomScale s) /\
  (AutoRotating s = false -> run s (repeat Frame k) = s).
Proof.
  split; [apply frames_rotating|apply frames_idle].
Qed.

(** *** Satellites lie on the sphere *)

Definition distance_from_origin (p : Point3D) : R :=
  sqrt (x p * x p + y p * y p + z p * z p).

Lemma satellite_on_sphere (count i : nat) (it : Idea) :
  (2 <= count)%nat -> (i < count)%nat ->
  let p := satellite count i it in
  x p * x p + y p * y p + z p * z p = 420 * 420.
Proof.
  intros Hc Hi. cbv zeta. unfold satellite.
  cbn -[Z.of_nat sqrt cos sin PI].
  change (IZR (Z.of_nat 1)) with 1. change (IZR (Z.of_nat 2)) with 2.
  change (IZR (Z.of_nat 420)) with 420.
  rewrite <- !INR_IZR_INZ.
  assert (Hi' : 0 <= INR i <= INR count - 1).
  { split; [apply pos_INR|].
    apply le_INR in Hi. rewrite S_INR in Hi. lra. }
  assert (Hc' : 1 <= INR count - 1).
  { apply le_INR in Hc. change (INR 2) with 2 in Hc. lra. }
  set (t := INR i / (INR count - 1)).
  assert (Ht : 0 <= t <= 1).
  { unfold t. split.
    - apply Rmult_le_pos; [lra|]. left. apply Rinv_0_lt_compat. lra.
    - apply Rmult_le_reg_r with (INR count - 1); [lra|].
      unfold Rdiv. rewrite Rmult_assoc, Rinv_l by lra. lra. }
  set (yn := 1 - t * 2).
  assert (Hy : 0 <= 1 - yn * yn) by (unfold yn; nra).
  pose proof (sqrt_sqrt _ Hy) as Hr.
  set (r := sqrt (1 - yn * yn)) in *.
  match goal with |- context [cos ?a] => set (th := a) end.
  pose proof (sin2_cos2 th) as Hsc. unfold Rsqr in Hsc.
  replace (cos th * r * 420 * (cos th * r * 420) + yn * 420 * (yn * 420)
           + sin th * r * 420 * (sin th * r * 420))
    with (420 * 420 * (r * r * (sin th * sin th + cos th * cos th) + yn * yn))
    by ring.
  rewrite Hsc, Hr. ring.
Qed.

(** C8.  With at least two items, every satellite of the layout is at
    distance [BASE_RADIUS] from the origin (in exact arithmetic). *)
Theorem C8_satellites_on_sphere (ideas : list Idea) (p : Point3D) :
  (2 <= List.length ideas)%nat ->
  In p (points ideas) ->
  is_center (isCenter p) = false ->
  distance_from_origin p = BASE_RADIUS /\
  x p * x p + y p * y p + z p * z p = BASE_RADIUS * BASE_RADIUS.
Proof.
  intros HN Hin Hc. rewrite points_satellites in Hin.
  destruct Hin as [<-|Hin]; [discriminate Hc|].
  apply satellites_In in Hin as (j & it & Hj & ->).
  assert (Hs := @satellite_on_sphere (List.length ideas) j it HN ltac:(lia)).
  cbv zeta in Hs. unfold distance_from_origin.
  change (@BASE_RADIUS real_number) with 420.
  rewrite Hs. split; [|reflexivity].
  apply sqrt_square. lra.
Qed.

(** *** Depth sort *)

Section SortFacts.
Variable A : Type.
Variable key : A -> R.

Let by_key (a b : A) : R := key a - key b.
Let key_le (a b : A) : Prop := key a <= key b.

Lemma sort_insert_perm (a : A) (l : list A) :
  Permutation (sort_insert by_key a l) (a :: l).
Proof.
  induction l as [|b l IH]; cbn; [apply Permutation_refl|].
  destruct (Rltb 0 (by_key a b)).
  - eapply perm_trans; [apply perm_skip, IH|apply perm_swap].
  - apply Permutation_refl.
Qed.

Lemma Array_sort_perm (l : list A) : Permutation (Array_sort by_key l) l.
Proof.
  induction l as [|a l IH]; cbn; [constructor|].
  eapply perm_trans; [apply sort_insert_perm|now apply perm_skip].
Qed.

Lemma sort_insert_hd (a b : A) (l : list A) :
  key b <= key a -> HdRel key_le b l -> HdRel key_le b (sort_insert by_key a l).
Proof.
  intros Hba Hl. destruct l as [|c l]; cbn.
  - constructor. exact Hba.
  - destruct (Rltb 0 (by_key a c)); constructor.
    + now inversion Hl.
    + exact Hba.
Qed.

Lemma sort_insert_sorted (a : A) (l : list A) :
  Sorted key_le l -> Sorted key_le (sort_insert by_key a l).
Proof.
  induction l as [|b l IH]; intro Hl; cbn.
  - repeat constructor.
  - inversion Hl as [|? ? Hs Hh]; subst.
    unfold Rltb. destruct (Rlt_dec 0 (by_key a b)) as [Hlt|Hge].
    + constructor; [now apply IH|].
      apply sort_insert_hd; [unfold by_key in Hlt; lra|exact Hh].
    + constructor; [exact Hl|].
      constructor. unfold key_le. unfold by_key in Hge. lra.
Qed.

Lemma Array_sort_sorted (l : list A) :
  StronglySorted key_le (Array_sort by_key l).
Proof.
  apply Sorted_StronglySorted.
  - intros u v w Huv Hvw. unfold key_le in *. lra.
  - induction l as [|a l IH]; cbn; [constructor|].
    now apply sort_insert_sorted.
Qed.
End SortFacts.

Lemma floor_integer (z : Z) (v : R) : v = IZR z -> IZR (Zfloor v) = IZR z.
Proof. intros ->. f_equal. apply Zfloor_eq. lra. Qed.

(** The origin is fixed by zooming and rotating: the center node always has
    scale 1 and z-index 1000. *)
Lemma project_center (s : State) (width height : R) :
  proj_scale (project s center width height) = 1 /\
  proj_zIndex (project s center width height) = 1000.
Proof.
  assert (H : proj_scale (project s center width height) = 1).
  { cbn -[sqrt cos sin PI]. field_simplify_eq; lra. }
  split; [exact H|].
  change (proj_zIndex (project s center width height))
    with (IZR (Zfloor (proj_scale (project s center width height) * 1000))).
  rewrite H. apply floor_integer. lra.
Qed.

(** C2 (as amended).  In every frame of an item list that is not a single
    item, the render list is the projected points (center and satellites) in
    ascending order of z-index, where the z-index of a point is the floor of
    1000 times its perspective scale; the center takes part in this order
    with its own z-index, which is 1000 (scale 1) whatever the view.  A single
    item is left out: there the program divides 0 by 0 and the satellite has
    NaN for coordinates and z-index (see C3), which no order ranks. *)
Theorem C2_render_list_sorted (s : State) (ideas : list Idea) (width height : R) :
  List.length ideas <> 1%nat ->
  let rendered := projectedPoints s ideas width height in
  StronglySorted (fun a b => pp_zIndex a <= pp_zIndex b) rendered /\
  Permutation rendered
    (map (fun p => spread p (project s p width height)) (points ideas)) /\
  (forall p, In p rendered -> pp_zIndex p = IZR (Zfloor (pp_scale p * 1000))) /\
  (forall p, In p rendered -> is_center (pp_isCenter p) = true ->
             pp_scale p = 1 /\ pp_zIndex p = 1000).
Proof.
  intros _. cbv zeta. unfold projectedPoints.
  pose proof (Array_sort_perm (@pp_zIndex real_number)
    (map (fun p => spread p (project s p width height)) (points ideas))) as Hperm.
  split; [apply (Array_sort_sorted (@pp_zIndex real_number))|].
  split; [exact Hperm|].
  assert (Hin : forall p,
    In p (Array_sort (fun a b => pp_zIndex a - pp_zIndex b)%num
            (map (fun p => spread p (project s p width height)) (points ideas))) ->
    exists q, In q (points ideas) /\ p = spread q (project s q width height)).
  { intros p Hp. apply (Permutation_in _ Hperm) in Hp.
    apply in_map_iff in Hp as (q & <- & Hq). now exists q. }
  split.
  - intros p Hp. destruct (Hin p Hp) as (q & _ & ->). reflexivity.
  - intros p Hp Hc. destruct (Hin p Hp) as (q & Hq & ->).
    rewrite points_satellites in Hq. destruct Hq as [<-|Hq].
    + apply project_center.
    + apply satellites_In in Hq as (j & it & _ & ->). discriminate Hc.
Qed.

(** *** A frame seen from above *)

Definition ideaA : Idea :=
  {| idea_id := "a"; phrase := "A"; category := "letter"; description := "first" |}.
Definition ideaB : Idea :=
  {| idea_id := "b"; phrase := "B"; category := "letter"; description := "second" |}.

(** The initial view, turned a quarter turn about the X axis. *)
Definition seen_from_above : State :=
  setRotation (fun _ => {| rot_x := - (PI / 2); rot_y := 0 |}) initial.

(** With two items the satellites are the two poles. *)
Lemma two_items_poles :
  points [ideaA; ideaB] =
  [ center;
    {| x := 0; y := 420; z := 0; idea := Some ideaA; id := "a"; isCenter := None |};
    {| x := 0; y := -420; z := 0; idea := Some ideaB; id := "b"; isCenter := None |} ].
Proof.
  rewrite points_satellites. cbn [satellites List.length]. unfold satellite.
  cbn -[sqrt cos sin PI].
  replace (1 - 0 / (2 - 1) * 2) with 1 by lra.
  replace (1 - 1 / (2 - 1) * 2) with (-1) by lra.
  replace (1 - 1 * 1) with 0 by lra.
  replace (1 - -1 * -1) with 0 by lra.
  rewrite sqrt_0.
  repeat (f_equal; try lra).
Qed.

Lemma project_pole_from_above (b : R) (o : option Idea) (i : string)
    (c : option bool) (width height : R) :
  proj_zIndex (project seen_from_above
                 {| x := 0; y := b; z := 0; idea := o; id := i; isCenter := c |}
                 width height)
  = IZR (Zfloor (900 / (900 - b) * 1000)).
Proof.
  cbn -[sqrt cos sin PI].
  rewrite cos_0, sin_0, cos_neg, sin_neg, cos_PI2, sin_PI2.
  do 2 f_equal. f_equal. f_equal. lra.
Qed.

Lemma sort_three (A : Type) (key : A -> R) (p1 p2 p3 : A) :
  key p3 < key p1 -> key p1 < key p2 ->
  Array_sort (fun a b => key a - key b) [p1; p2; p3] = [p3; p1; p2].
Proof.
  intros H31 H12. cbn.
  rewrite (@Rltb_true 0 (key p2 - key p3)) by lra. cbn.
  rewrite (@Rltb_true 0 (key p1 - key p3)) by lra. cbn.
  rewrite (@Rltb_false 0 (key p1 - key p2)) by lra.
  reflexivity.
Qed.

(** Two items, seen from above: the satellite of the first item is nearer
    than the center and is sorted after it, with z-index 1875 against the
    center's 1000. *)
Lemma center_is_not_last_from_above :
  let rendered := projectedPoints seen_from_above [ideaA; ideaB] 800 600 in
  map pp_id rendered = ["b"; "center"; "a"]%string /\
  map pp_zIndex rendered = [681; 1000; 1875] /\
  map (fun p => is_center (pp_isCenter p)) rendered = [false; true; false].
Proof.
  cbv zeta. unfold projectedPoints. rewrite two_items_poles. cbn [map].
  assert (Hc := proj2 (project_center seen_from_above 800 600)).
  assert (Ha : proj_zIndex (project seen_from_above
            {| x := 0; y := 420; z := 0; idea := Some ideaA; id := "a";
               isCenter := None |} 800 600) = 1875).
  { rewrite project_pole_from_above. apply floor_integer. lra. }
  assert (Hb : proj_zIndex (project seen_from_above
            {| x := 0; y := -420; z := 0; idea := Some ideaB; id := "b";
               isCenter := None |} 800 600) = 681).
  { rewrite project_pole_from_above. f_equal. apply Zfloor_eq. lra. }
  rewrite (sort_three (@pp_zIndex real_number)).
  - cbn [map pp_id pp_zIndex pp_isCenter spread is_center].
    rewrite Hc, Ha, Hb. repeat split.
  - cbn [pp_zIndex spread]. rewrite Hc, Hb. lra.
  - cbn [pp_zIndex spread]. rewrite Hc, Ha. lra.
Qed.

(** *** The first frame *)

Lemma sin_initial_tilt : 0.19 <= sin 0.2 <= 1.
Proof.
  split; [|apply SIN_bound].
  assert (Hpi : 0.2 <= PI) by (pose proof PI2_1; lra).
  destruct (SIN 0.2 ltac:(lra) Hpi) as [Hlb _].
  eapply Rle_trans; [|exact Hlb].
  unfold sin_lb, sin_approx, sum_f_R0, sin_term. simpl. lra.
Qed.

Lemma project_pole_first_frame (b : R) (o : option Idea) (i : string)
    (c : option bool) (width height : R) :
  proj_zIndex (project initial
                 {| x := 0; y := b; z := 0; idea := o; id := i; isCenter := c |}
                 width height)
  = IZR (Zfloor (900 / (900 + b * sin 0.2) * 1000)).
Proof.
  cbn -[sqrt cos sin PI].
  rewrite cos_0, sin_0.
  replace (2 / 10) with 0.2 by lra.
  do 2 f_equal. f_equal. f_equal. lra.
Qed.

Lemma sort_three_first_frame (A : Type) (key : A -> R) (p1 p2 p3 : A) :
  key p2 < key p1 -> key p1 < key p3 ->
  Array_sort (fun a b => key a - key b) [p1; p2; p3] = [p2; p1; p3].
Proof.
  intros H21 H13. cbn.
  rewrite (@Rltb_false 0 (key p2 - key p3)) by lra. cbn.
  rewrite (@Rltb_true 0 (key p1 - key p2)) by lra. cbn.
  rewrite (@Rltb_false 0 (key p1 - key p3)) by lra.
  reflexivity.
Qed.

(** C2, counterexample.  Already in the first frame of a map of two items
    (rotation 0.2 about X, zoom 1) the center is not last: the satellite of
    the second item is nearer than the origin, has a z-index above the
    center's 1000 and is sorted after it. *)
Lemma C2_center_is_not_last_in_first_frame :
  let rendered := projectedPoints initial [ideaA; ideaB] 800 600 in
  map pp_id rendered = ["a"; "center"; "b"]%string /\
  exists ka kb, map pp_zIndex rendered = [ka; 1000; kb] /\ ka < 1000 < kb.
Proof.
  cbv zeta. unfold projectedPoints. rewrite two_items_poles. cbn [map].
  pose proof sin_initial_tilt as Hs.
  assert (Hc := proj2 (project_center initial 800 600)).
  assert (Ha : proj_zIndex (project initial
            {| x := 0; y := 420; z := 0; idea := Some ideaA; id := "a";
               isCenter := None |} 800 600) < 1000).
  { rewrite project_pole_first_frame.
    eapply Rle_lt_trans; [apply Zfloor_bound|].
    apply Rmult_lt_reg_r with (900 + 420 * sin 0.2); [lra|].
    field_simplify; lra. }
  assert (Hb : 1000 < proj_zIndex (project initial
            {| x := 0; y := -420; z := 0; idea := Some ideaB; id := "b";
               isCenter := None |} 800 600)).
  { rewrite project_pole_first_frame.
    apply Rlt_le_trans with (IZR 1001); [lra|].
    apply IZR_le, Zfloor_lub.
    apply Rmult_le_reg_r with (900 + -420 * sin 0.2); [lra|].
    field_simplify; lra. }
  rewrite (sort_three_first_frame (@pp_zIndex real_number)).
  - cbn [map pp_id pp_zIndex spread]. split; [reflexivity|].
    eexists _, _. split; [rewrite Hc; reflexivity|]. split; assumption.
  - cbn [pp_zIndex spread]. rewrite Hc. exact Ha.
  - cbn [pp_zIndex spread]. rewrite Hc. exact Hb.
Qed.

(** *** The theorems above, at concrete inputs *)

(** The component as it is mounted. *)
Definition start : State := @initial real_number.

(** Inspecting the first item, reached by a click on its node. *)
Definition inspecting_A : State := run start [NodeClick None (Some ideaA)].

Lemma C1_set_as_core_at_A :
  onSetAsCore_calls (setAsCoreButtonClick inspecting_A) = ["A"%string] /\
  selectedIdea (setAsCoreButtonClick inspecting_A) = None /\
  autoRotate (setAsCoreButtonClick inspecting_A) = false /\
  AutoRotating (setAsCoreButtonClick inspecting_A) = false /\
  animate (setAsCoreButtonClick inspecting_A) = setAsCoreButtonClick inspecting_A /\
  autoRotate (closeButtonClick inspecting_A) = true.
Proof.
  apply (@C1_set_as_core_keeps_rotation_suspended real_number inspecting_A ideaA);
    reflexivity.
Defined.

Lemma C2_render_list_sorted_two_items :
  StronglySorted (fun a b => pp_zIndex a <= pp_zIndex b)
    (projectedPoints seen_from_above [ideaA; ideaB] 800 600) /\
  Permutation (projectedPoints seen_from_above [ideaA; ideaB] 800 600)
    (map (fun p => spread p (project seen_from_above p 800 600))
         (points [ideaA; ideaB])) /\
  (forall p, In p (projectedPoints seen_from_above [ideaA; ideaB] 800 600) ->
             pp_zIndex p = IZR (Zfloor (pp_scale p * 1000))) /\
  (forall p, In p (projectedPoints seen_from_above [ideaA; ideaB] 800 600) ->
             is_center (pp_isCenter p) = true ->
             pp_scale p = 1 /\ pp_zIndex p = 1000).
Proof.
  apply (C2_render_list_sorted seen_from_above [ideaA; ideaB] 800 600).
  cbn. lia.
Defined.

(** After "set as core" none of the three states is encoded, and the
    animation stays suspended until the pointer is pressed and released. *)
Lemma set_as_core_leaves_no_state :
  let s := run start [NodeClick None (Some ideaA); SetAsCoreClick] in
  flags s = (false, false, false) /\ active_states s = 0%nat /\
  run s [Frame; Frame] = s /\
  AutoRotating (run s [MouseDown 10 20; MouseUp]) = true.
Proof. cbv zeta. repeat split. Qed.

(** C4, counterexample.  A node click that arrives while the pointer is
    still down: the flags hold a drag and a selection together. *)
Lemma C4_dragging_while_inspecting :
  let s := run start [MouseDown 10 20; NodeClick None (Some ideaA)] in
  isDragging s = true /\ selectedIdea s = Some ideaA /\
  (AutoRotating s, Dragging s, Inspecting s) = (false, true, true) /\
  active_states s = 2%nat.
Proof. cbv zeta. repeat split. Qed.

Definition a_session : list (@Event real_number) :=
  [ MouseDown 10 20; MouseMove 110 20; MouseUp; Frame; Wheel 100;
    NodeClick None (Some ideaA); MouseDown 5 5; MouseUp; Wheel (-300);
    NodeClick None (Some ideaB); BackgroundClick; Frame;
    NodeClick (Some true) None ].

Lemma C4_flags_at_a_session :
  at_most_one_state (run start a_session) /\
  (active_states (run start a_session) <= 1)%nat /\
  (existsb is_SetAsCoreClick a_session = false ->
   one_state (run start a_session) /\ active_states (run start a_session) = 1%nat).
Proof.
  apply (@C4_flags_at_most_one_state real_number a_session). reflexivity.
Defined.

Definition wheel_session : list (@Event real_number) :=
  [Wheel (-2000); Frame; Wheel 5000].

Lemma C5_zoom_range_at_initial :
  0.5 <= zoomScale (run start wheel_session) <= 2.5 /\
  (forall deltaY, zoomScale (handleWheel deltaY start)
                  = clamp (zoomScale start - deltaY * 0.001) 0.5 2.5) /\
  (zoomScale start = 1 -> zoomScale (handleWheel (-2000) start) = 2.5).
Proof.
  apply (C5_zoom_range start wheel_session).
  cbn. lra.
Defined.

Lemma C8_two_items_on_sphere :
  distance_from_origin (satellite 2 1 ideaB) = BASE_RADIUS /\
  x (satellite 2 1 ideaB) * x (satellite 2 1 ideaB)
  + y (satellite 2 1 ideaB) * y (satellite 2 1 ideaB)
  + z (satellite 2 1 ideaB) * z (satellite 2 1 ideaB) = BASE_RADIUS * BASE_RADIUS.
Proof.
  apply (C8_satellites_on_sphere [ideaA; ideaB] (satellite 2 1 ideaB)).
  - cbn. lia.
  - right. right. left. reflexivity.
  - reflexivity.
Defined.

Lemma C9_three_frames :
  rot_y (rotation (run start (repeat Frame 3)))
    = rot_y (rotation start) + 0.003 * INR 3 /\
  rot_x (rotation (run start (repeat Frame 3))) = rot_x (rotation start) /\
  zoomScale (run start (repeat Frame 3)) = zoomScale start.
Proof.
  apply (proj1 (C9_auto_rotation start 3)). reflexivity.
Defined.

Lemma frames_while_inspecting :
  run inspecting_A (repeat Frame 3) = inspecting_A.
Proof.
  apply frames_idle. reflexivity.
Qed.

End ExactProps.

(** ** Properties in binary64 arithmetic *)

Module Float64Props.
Import Float64.
Local Open Scope float_scope.

Lemma mul_nan_r (a : float) : a * nan = nan.
Proof.
  apply Prim2SF_inj. rewrite mul_spec.
  change (Prim2SF nan) with S754_nan.
  destruct (Prim2SF a) as [sg|sg| |sg m e]; reflexivity.
Qed.

(** C3.  With a single item the loop divides [0] by [count - 1 = 0]: the
    quotient is NaN, and so are the three coordinates of the only satellite,
    whatever [Math.cos] and [Math.sin] return. *)
Theorem C3_single_item_is_NaN (host_cos host_sin : float -> float) (it : Idea) :
  float_of_nat 0 / (float_of_nat 1 - float_of_nat 1) = nan /\
  exists p : @Point3D (float_number host_cos host_sin),
    @points (float_number host_cos host_sin) [it]
      = [@center (float_number host_cos host_sin); p] /\
    idea p = Some it /\
    is_nan (x p) = true /\ is_nan (y p) = true /\ is_nan (z p) = true.
Proof.
  split; [reflexivity|].
  eexists. split; [reflexivity|]. split; [reflexivity|].
  cbn [x y z satellite float_number nmul nsub ndiv of_nat Math_sqrt Math_cos
       Math_sin BASE_RADIUS].
  change (PrimFloat.sqrt
            (float_of_nat 1 -
             (float_of_nat 1 - float_of_nat 0 / (float_of_nat 1 - float_of_nat 1)
                               * float_of_nat 2)
             * (float_of_nat 1 - float_of_nat 0 / (float_of_nat 1 - float_of_nat 1)
                                 * float_of_nat 2)))
    with nan.
  rewrite !mul_nan_r. repeat split.
Qed.

(** *** Zoom, in doubles *)

Lemma SFcompare_antisym (u v : spec_float) :
  SFcompare v u = option_map CompOpp (SFcompare u v).
Proof.
  destruct u as [su|su| |su mu eu], v as [sv|sv| |sv mv ev]; cbn;
    try destruct su; try destruct sv; try reflexivity;
    rewrite (Z.compare_antisym eu ev);
    destruct (eu ?= ev)%Z; cbn; try reflexivity;
    rewrite (Pos.compare_cont_antisym mu mv Eq); reflexivity.
Qed.

Lemma SFcompare_defined (u v : spec_float) :
  u <> S754_nan -> v <> S754_nan -> exists c, SFcompare u v = Some c.
Proof.
  intros Hu Hv.
  destruct u as [su|su| |su mu eu], v as [sv|sv| |sv mv ev];
    try contradiction; cbn; eauto.
Qed.

Lemma not_nan_spec (a : float) : is_nan a = false -> Prim2SF a <> S754_nan.
Proof.
  unfold is_nan. rewrite FloatAxioms.eqb_spec. intros H E.
  rewrite E in H. discriminate H.
Qed.

Lemma ltb_false_leb (a b : float) :
  is_nan a = false -> is_nan b = false -> (a <? b) = false -> (b <=? a) = true.
Proof.
  intros Ha Hb. rewrite ltb_spec, leb_spec. unfold SFltb, SFleb.
  rewrite (SFcompare_antisym (Prim2SF a) (Prim2SF b)).
  destruct (SFcompare_defined (not_nan_spec a Ha) (not_nan_spec b Hb)) as [c ->].
  now destruct c.
Qed.

Lemma ltb_true_leb (a b : float) : (a <? b) = true -> (a <=? b) = true.
Proof.
  rewrite ltb_spec, leb_spec. unfold SFltb, SFleb.
  now destruct (SFcompare (Prim2SF a) (Prim2SF b)) as [[| |]|].
Qed.

(** [Math.min(Math.max(v, 0.5), 2.5)] is within [0.5, 2.5] for every double
    [v] but NaN. *)
Lemma float64_clamp_range (v : float) :
  is_nan v = false ->
  (0.5 <=? float_min (float_max v 0.5) 2.5) = true /\
  (float_min (float_max v 0.5) 2.5 <=? 2.5) = true.
Proof.
  intro Hv.
  assert (Hmin : (0.5 <=? float_min v 2.5) = true /\ (float_min v 2.5 <=? 2.5) = true
                 \/ (v <? 0.5) = true).
  { destruct (v <? 0.5) eqn:E1; [now right|left].
    pose proof (@ltb_false_leb v 0.5 Hv eq_refl E1) as Hlo.
    unfold float_min. rewrite Hv. cbn [is_nan orb].
    change (is_nan 2.5) with false. cbn [orb].
    destruct (v <? 2.5) eqn:E3.
    - split; [exact Hlo|now apply ltb_true_leb].
    - destruct (2.5 <? v) eqn:E4; [split; reflexivity|].
      pose proof (@ltb_false_leb 2.5 v eq_refl Hv E4) as Hhi.
      destruct (get_sign v); split; first [exact Hlo|exact Hhi|reflexivity]. }
  unfold float_max at 1 2. rewrite Hv. change (is_nan 0.5) with false. cbn [orb].
  destruct (v <? 0.5) eqn:E1; [split; reflexivity|].
  destruct Hmin as [Hmin|Hmin]; [|discriminate Hmin].
  destruct (0.5 <? v); [exact Hmin|].
  destruct (get_sign v); [split; reflexivity|exact Hmin].
Qed.

(** In doubles too a wheel event leaves the zoom within [0.5, 2.5], as long
    as [prev - deltaY * 0.001] is a number. *)
Lemma float64_wheel_range (host_cos host_sin : float -> float)
    (s : @State (float_number host_cos host_sin)) (deltaY : float) :
  is_nan (zoomScale s - deltaY * 0.001) = false ->
  (0.5 <=? zoomScale (@handleWheel (float_number host_cos host_sin) deltaY s)) = true /\
  (zoomScale (@handleWheel (float_number host_cos host_sin) deltaY s) <=? 2.5) = true.
Proof.
  intro H. exact (float64_clamp_range _ H).
Qed.

(** The wheel scenario of the specification, as the doubles compute it. *)
Example wheel_scenario_float64 (host_cos host_sin : float -> float) :
  zoomScale (@handleWheel (float_number host_cos host_sin) (-2000)
               (@initial (float_number host_cos host_sin))) = 2.5.
Proof. reflexivity. Qed.

End Float64Props.

(** * More of the component *)

From Stdlib Require DecimalString DecimalNat.
From Stdlib Require Import Ascii.

(** ** What the render pass derives from the projected points *)

Section Rendering.

Context {N : JSNumber}.
Local Open Scope num_scope.

(** [const centerPoint = projectedPoints.find(p => p.isCenter)] *)
Definition centerPoint (s : State) (ideas : list Idea) (width height : num)
  : option ProjectedPoint :=
  find (fun p => is_center (pp_isCenter p)) (projectedPoints s ideas width height).

(** [const isBehind = p.rawZ < -100 * zoomScale] *)
Definition isBehind (s : State) (p : ProjectedPoint) : bool :=
  pp_rawZ p <? (of_nat 0 - of_nat 100) * zoomScale s.

(** *** The globe wireframe (the [globeLines] memo)

    Its points are [{x, y, z, id}] objects: points without [idea] and
    [isCenter]. *)

(** [`${n}`] for a loop counter. *)
Definition String_of_nat (n : nat) : string :=
  DecimalString.NilEmpty.string_of_uint (Nat.to_uint n).

Definition wire_point (px py pz : num) (name : string) : Point3D :=
  {| x := px; y := py; z := pz; idea := None; id := name; isCenter := None |}.

(** One meridian: the inner loop [for (let j = 0; j <= 20; j++)]. *)
Definition longitude_line (i : nat) : list Point3D :=
  let theta := (of_nat i / of_nat 6) * Math_PI * of_nat 2 in
  map (fun j =>
         let phi := (of_nat j / of_nat 20) * Math_PI in
         let x := BASE_RADIUS * Math_sin phi * Math_cos theta in
         let y := BASE_RADIUS * Math_cos phi in
         let z := BASE_RADIUS * Math_sin phi * Math_sin theta in
         wire_point x y z
           ("long-" ++ String_of_nat i ++ "-" ++ String_of_nat j))
      (seq 0 21).

(** One parallel: the body of [[-0.5, 0, 0.5].forEach((level, idx) => ...)]. *)
Definition latitude_line (level : num) (idx : nat) : list Point3D :=
  let y := level * BASE_RADIUS in
  let radius := Math_sqrt (BASE_RADIUS * BASE_RADIUS - y * y) in
  map (fun j =>
         let theta := (of_nat j / of_nat 30) * Math_PI * of_nat 2 in
         let x := radius * Math_cos theta in
         let z := radius * Math_sin theta in
         wire_point x y z
           ("lat-" ++ String_of_nat idx ++ "-" ++ String_of_nat j))
      (seq 0 31).

(** The levels [[-0.5, 0, 0.5]]; [-0.5] is the negation of [0.5]. *)
Definition levels : list num := [of_nat 0 - lit_0_5; of_nat 0; lit_0_5].

Definition globeLines : list (list Point3D) :=
  map longitude_line (seq 0 6)
  ++ map (fun '(idx, level) => latitude_line level idx)
         (combine (seq 0 3) levels).

(** [line.map(p => project(p, width, height))] *)
Definition projectedLine (s : State) (width height : num) (line : list Point3D)
  : list Projection :=
  map (fun p => project s p width height) line.

End Rendering.

(** ** Interaction, in any arithmetic *)

Section Interaction.

Context {N : JSNumber}.

(** The events of the pointer and of the animation, as opposed to clicks and
    the wheel. *)
Definition is_pointer_or_frame (e : Event) : bool :=
  match e with
  | MouseDown _ _ | MouseMove _ _ | MouseUp | Frame => true
  | _ => false
  end.

Lemma step_while_inspecting (s : State) (e : Event) :
  truthy (selectedIdea s) = true -> isDragging s = false ->
  is_pointer_or_frame e = true -> step s e = s.
Proof.
  intros Hsel Hdrag He.
  destruct s as [rot zm dr lm au sel calls]. cbn in Hsel, Hdrag. subst dr.
  destruct sel as [it|]; [|discriminate Hsel].
  destruct e; try discriminate He; cbn;
    unfold handleMouseDown, handleMouseMove, handleMouseUp, animate; cbn;
    try reflexivity.
  now rewrite andb_false_r.
Qed.

(** While an item is inspected (and no drag was in progress when it was
    selected), pressing, moving and releasing the pointer and animation
    frames leave the whole state as it is: rotation, zoom, selection. *)
Theorem inspecting_ignores_pointer (s : State) (evs : list Event) :
  truthy (selectedIdea s) = true -> isDragging s = false ->
  forallb is_pointer_or_frame evs = true ->
  run s evs = s.
Proof.
  intros Hsel Hdrag. induction evs as [|e evs IH]; intro H; [reflexivity|].
  cbn in H. apply andb_prop in H as [He H].
  cbn [run fold_left]. rewrite (step_while_inspecting s e Hsel Hdrag He).
  exact (IH H).
Qed.

(** The ways out of an inspection other than "set as core". *)
Definition is_dismissal (e : Event) : bool :=
  match e with
  | NodeClick c _ => is_center c
  | BackgroundClick | CloseClick => true
  | _ => false
  end.

(** Inspecting an item and dismissing it (by the center node, the
    background or the close button) gives back the state the component was
    auto-rotating in; in between, the selection is the clicked item. *)
Theorem inspect_then_dismiss (s : State) (it : Idea) (dismiss : Event) :
  AutoRotating s = true -> is_dismissal dismiss = true ->
  selectedIdea (step s (NodeClick None (Some it))) = Some it /\
  flags (step s (NodeClick None (Some it))) = (false, false, true) /\
  run s [NodeClick None (Some it); dismiss] = s.
Proof.
  intros Ha Hd. destruct s as [rot zm dr lm au sel calls].
  unfold AutoRotating in Ha. cbn in Ha.
  destruct au, dr, sel; try discriminate Ha.
  destruct dismiss as [| | | |c i| | | |]; try discriminate Hd; cbn in Hd |- *.
  - unfold handleNodeClick. cbn. rewrite Hd. repeat split.
  - repeat split.
  - repeat split.
Qed.

(** A click on the node of the [i]-th item of the layout selects exactly that
    item, whatever was selected before, and suspends the rotation. *)
Theorem node_click_selects_item (s : State) (ideas : list Idea) (i : nat) (it : Idea) :
  nth_error ideas i = Some it ->
  exists p, nth_error (points ideas) (S i) = Some p /\
            id p = idea_id it /\
            selectedIdea (handleNodeClick (isCenter p) (idea p) s) = Some it /\
            autoRotate (handleNodeClick (isCenter p) (idea p) s) = false.
Proof.
  intro H. rewrite points_satellites. cbn [nth_error].
  generalize (List.length ideas) as count. generalize 0%nat as k.
  revert i H. induction ideas as [|a ideas IH]; intros i H k count.
  - destruct i; discriminate H.
  - destruct i as [|i]; cbn in H |- *.
    + injection H as ->. eexists. split; [reflexivity|]. cbn. repeat split.
    + apply IH. exact H.
Qed.

(** Press and release without a move in between: the component is
    auto-rotating again and only the recorded pointer position differs. *)
Theorem press_release (s : State) (cx cy : num) :
  AutoRotating s = true ->
  flags (step s (MouseDown cx cy)) = (false, true, false) /\
  animate (step s (MouseDown cx cy)) = step s (MouseDown cx cy) /\
  run s [MouseDown cx cy; MouseUp]
    = setLastMouse {| mouse_x := cx; mouse_y := cy |} s.
Proof.
  intro Ha. destruct s as [rot zm dr lm au sel calls].
  unfold AutoRotating in Ha. cbn in Ha.
  destruct au, dr, sel; try discriminate Ha.
  repeat split.
Qed.

End Interaction.

(** ** The engine in exact arithmetic *)

Module ExactEngine.
Import Exact ExactProps.
Local Open Scope R_scope.

(** *** Dragging *)

Definition moves (path : list (R * R)) : list (@Event real_number) :=
  map (fun p => MouseMove (fst p) (snd p)) path.

Definition pointer (s : @State real_number) : R * R :=
  (mouse_x (lastMouseRef s), mouse_y (lastMouseRef s)).

Lemma last_nonempty (A : Type) (l : list A) (a d d' : A) :
  last (a :: l) d = last (a :: l) d'.
Proof.
  revert a. induction l as [|b l IH]; intro a; [reflexivity|].
  change (last (b :: l) d = last (b :: l) d'). apply IH.
Qed.

Lemma moves_while_dragging (path : list (R * R)) :
  forall s : State, isDragging s = true ->
    let s' := run s (moves path) in
    rot_y (rotation s') - fst (pointer s') * 0.005
      = rot_y (rotation s) - fst (pointer s) * 0.005 /\
    rot_x (rotation s') + snd (pointer s') * 0.005
      = rot_x (rotation s) + snd (pointer s) * 0.005 /\
    pointer s' = last path (pointer s) /\
    zoomScale s' = zoomScale s /\
    flags s' = flags s /\
    selectedIdea s' = selectedIdea s /\
    onSetAsCore_calls s' = onSetAsCore_calls s.
Proof.
  induction path as [|[px py] path IH]; intros s Hd; cbv zeta.
  - cbn. repeat split.
  - cbn [moves map run fold_left step fst snd].
    set (s1 := @handleMouseMove real_number px py s).
    assert (H1 : isDragging s1 = true /\
                 rot_y (rotation s1) - px * 0.005
                   = rot_y (rotation s) - fst (pointer s) * 0.005 /\
                 rot_x (rotation s1) + py * 0.005
                   = rot_x (rotation s) + snd (pointer s) * 0.005 /\
                 pointer s1 = (px, py) /\
                 zoomScale s1 = zoomScale s /\ flags s1 = flags s /\
                 selectedIdea s1 = selectedIdea s /\
                 onSetAsCore_calls s1 = onSetAsCore_calls s).
    { unfold s1, handleMouseMove, pointer, flags. rewrite Hd. cbn.
      rewrite Hd. repeat split; lra. }
    destruct H1 as (Hd1 & Hy & Hx & Hp & Hz & Hf & Hs & Hc).
    destruct (IH s1 Hd1) as (IHy & IHx & IHp & IHz & IHf & IHs & IHc).
    fold (moves path). fold (run s1 (moves path)).
    rewrite IHy, IHx, IHp, IHz, IHf, IHs, IHc, Hp, Hz, Hf, Hs, Hc.
    cbn [fst snd]. repeat split; try assumption.
    destruct path as [|p path]; [reflexivity|].
    change (last ((px, py) :: p :: path) (pointer s)) with (last (p :: path) (pointer s)).
    apply last_nonempty.
Qed.

(** A drag gesture (press, any number of moves, release) with no item
    selected turns the view by 0.005 radians per pixel between the press and
    the last pointer position, whatever the path in between:
    [rotation.y] grows with the horizontal distance and [rotation.x] falls
    with the vertical one; the zoom is kept and the component is
    auto-rotating again. *)
Theorem drag_gesture (s : State) (x0 y0 : R) (path : list (R * R)) :
  selectedIdea s = None ->
  let s' := run s (MouseDown x0 y0 :: moves path ++ [MouseUp]) in
  rot_y (rotation s') = rot_y (rotation s) + (fst (last path (x0, y0)) - x0) * 0.005 /\
  rot_x (rotation s') = rot_x (rotation s) - (snd (last path (x0, y0)) - y0) * 0.005 /\
  zoomScale s' = zoomScale s /\
  AutoRotating s' = true.
Proof.
  intro Hsel. cbv zeta. cbn [run fold_left step].
  unfold run. rewrite fold_left_app. fold (run (@handleMouseDown real_number x0 y0 s) (moves path)).
  set (s0 := @handleMouseDown real_number x0 y0 s).
  assert (H0 : isDragging s0 = true /\ rotation s0 = rotation s /\
               pointer s0 = (x0, y0) /\ zoomScale s0 = zoomScale s /\
               selectedIdea s0 = None).
  { unfold s0, handleMouseDown. rewrite Hsel. cbn. repeat split. exact Hsel. }
  destruct H0 as (Hd & Hr & Hp & Hz & Hs).
  destruct (moves_while_dragging path s0 Hd) as (My & Mx & Mp & Mz & Mf & Ms & _).
  cbv zeta in *. set (s1 := run s0 (moves path)) in *.
  rewrite Hp in My, Mx, Mp. rewrite Hr in My, Mx. cbn [fst snd] in My, Mx.
  rewrite Hz in Mz. rewrite Hs in Ms.
  cbn [fold_left step].
  assert (Hup : handleMouseUp s1 = setAutoRotate true (setIsDragging false s1))
    by (unfold handleMouseUp; rewrite Ms; reflexivity).
  rewrite Hup. unfold AutoRotating. cbn. rewrite Ms, <- Mp. cbn.
  unfold pointer in My, Mx. cbn [fst snd] in My, Mx.
  repeat split; solve [lra|exact Mz].
Qed.

(** A pointer move with no drag in progress changes nothing. *)
Lemma moves_without_drag (path : list (R * R)) (s : State) :
  isDragging s = false -> run s (moves path) = s.
Proof.
  intro Hd. induction path as [|p path IH]; [reflexivity|].
  cbn [moves map run fold_left step]. unfold handleMouseMove. rewrite Hd. exact IH.
Qed.

(** *** Depth and perspective *)

Lemma rotation_keeps_norm (s : State) (p : Point3D) (width height : R) :
  let q := project s p width height in
  (proj_rawZ q) * (proj_rawZ q)
  <= zoomScale s * zoomScale s * (x p * x p + y p * y p + z p * z p).
Proof.
  cbv zeta. cbn -[sqrt cos sin PI].
  pose proof (sin2_cos2 (rot_y (rotation s))) as Hy.
  pose proof (sin2_cos2 (rot_x (rotation s))) as Hx.
  unfold Rsqr in Hy, Hx.
  set (a := cos (rot_y (rotation s))) in *. set (b := sin (rot_y (rotation s))) in *.
  set (c := cos (rot_x (rotation s))) in *. set (d := sin (rot_x (rotation s))) in *.
  set (X := x p * zoomScale s). set (Y := y p * zoomScale s). set (Z := z p * zoomScale s).
  set (z1 := Z * a + X * b).
  assert (H1 : z1 * z1 + (X * a - Z * b) * (X * a - Z * b) = X * X + Z * Z).
  { unfold z1. replace (X * X + Z * Z) with ((X * X + Z * Z) * (b * b + a * a))
      by (rewrite Hy; ring). ring. }
  assert (H2 : (z1 * c + Y * d) * (z1 * c + Y * d)
               + (Y * c - z1 * d) * (Y * c - z1 * d) = Y * Y + z1 * z1).
  { replace (Y * Y + z1 * z1) with ((Y * Y + z1 * z1) * (d * d + c * c))
      by (rewrite Hx; ring). ring. }
  replace (zoomScale s * zoomScale s * (x p * x p + y p * y p + z p * z p))
    with (X * X + Y * Y + Z * Z) by (unfold X, Y, Z; ring).
  pose proof (Rle_0_sqr (X * a - Z * b)) as P1.
  pose proof (Rle_0_sqr (Y * c - z1 * d)) as P2.
  unfold Rsqr in P1, P2. lra.
Qed.

Lemma layout_point_norm (ideas : list Idea) (p : Point3D) :
  (2 <= List.length ideas)%nat -> In p (points ideas) ->
  x p * x p + y p * y p + z p * z p <= 420 * 420.
Proof.
  intros HN Hin. rewrite points_satellites in Hin.
  destruct Hin as [<-|Hin].
  - cbn. lra.
  - apply satellites_In in Hin as (j & it & Hj & ->).
    right. apply (@satellite_on_sphere (List.length ideas) j it HN). lia.
Qed.

(** With at least two items and a zoom below 900/420 = 15/7, every point of
    the layout stays in front of the focal plane in every view: the
    denominator of the perspective divide is positive and the perspective
    scale lies between 900/(900 + 420·zoom) and 900/(900 - 420·zoom). *)
Theorem perspective_scale_bounds (s : State) (ideas : list Idea) (p : Point3D)
    (width height : R) :
  (2 <= List.length ideas)%nat ->
  In p (points ideas) ->
  0 <= zoomScale s -> 420 * zoomScale s < 900 ->
  let q := project s p width height in
  0 < 900 + proj_rawZ q /\
  900 / (900 + 420 * zoomScale s) <= proj_scale q
    <= 900 / (900 - 420 * zoomScale s).
Proof.
  intros HN Hin Hz0 Hz. cbv zeta.
  pose proof (rotation_keeps_norm s p width height) as Hn. cbv zeta in Hn.
  pose proof (layout_point_norm ideas p HN Hin) as Hp.
  set (r := proj_rawZ (project s p width height)) in *.
  assert (Hr : - (420 * zoomScale s) <= r <= 420 * zoomScale s).
  { assert (r * r <= (420 * zoomScale s) * (420 * zoomScale s)) by nra.
    split; nra. }
  change (proj_scale (project s p width height)) with (900 / (900 + r)).
  split; [lra|]. unfold Rdiv. split.
  - apply Rmult_le_compat_l; [lra|]. apply Rinv_le_contravar; lra.
  - apply Rmult_le_compat_l; [lra|]. apply Rinv_le_contravar; lra.
Qed.

Lemma first_satellite_is_pole (count : nat) (it : Idea) :
  (2 <= count)%nat ->
  satellite count 0 it
  = {| x := 0; y := 420; z := 0; idea := Some it; id := idea_id it;
       isCenter := None |}.
Proof.
  intro Hc. unfold satellite. cbn -[sqrt cos sin PI Z.of_nat].
  change (IZR (Z.of_nat 0)) with 0. change (IZR (Z.of_nat 1)) with 1.
  change (IZR (Z.of_nat 2)) with 2. change (IZR (Z.of_nat 420)) with 420.
  assert (Hd : IZR (Z.of_nat count) - 1 <> 0).
  { apply le_INR in Hc. rewrite (INR_IZR_INZ count) in Hc.
    change (INR 2) with 2 in Hc. lra. }
  replace (1 - 0 / (IZR (Z.of_nat count) - 1) * 2) with 1 by (field; exact Hd).
  replace (1 - 1 * 1) with 0 by ring. rewrite sqrt_0.
  f_equal; ring.
Qed.

Lemma rendered_In (s : State) (ideas : list Idea) (width height : R) (p : Point3D) :
  In p (points ideas) ->
  In (spread p (project s p width height)) (projectedPoints s ideas width height).
Proof.
  intro H. unfold projectedPoints.
  eapply Permutation_in.
  - apply Permutation_sym. apply (Array_sort_perm (@pp_zIndex real_number)).
  - apply in_map_iff. now exists p.
Qed.

(** The zoom is allowed up to 2.5, beyond 15/7: with at least two items,
    whenever [900 + 420·zoom·sin(rotation.x) < 0], the node of the first item
    (the pole of the sphere, which the rotation about Y leaves in place) is
    past the focal plane and is rendered with a negative perspective scale. *)
Theorem negative_scale_when_zoomed_in (s : State) (ideas : list Idea) (it : Idea)
    (width height : R) :
  (2 <= List.length ideas)%nat ->
  hd_error ideas = Some it ->
  900 + 420 * zoomScale s * sin (rot_x (rotation s)) < 0 ->
  exists p, In p (projectedPoints s ideas width height) /\
            pp_id p = idea_id it /\ pp_idea p = Some it /\
            pp_scale p < 0.
Proof.
  intros HN Hhd Hneg. destruct ideas as [|it0 rest]; [discriminate Hhd|].
  injection Hhd as ->.
  exists (spread (satellite (List.length (it :: rest)) 0 it)
            (project s (satellite (List.length (it :: rest)) 0 it) width height)).
  split.
  - apply rendered_In. rewrite points_satellites. right. left. reflexivity.
  - rewrite first_satellite_is_pole by exact HN. cbn -[sqrt cos sin PI].
    repeat split.
    set (d := 900 + _).
    assert (Hd : d < 0) by (unfold d; nra).
    pose proof (Rinv_lt_0_compat d Hd) as Hi.
    unfold Rdiv. nra.
Qed.

(** *** The render list *)

Lemma rendered_origin (s : State) (ideas : list Idea) (width height : R)
    (c : ProjectedPoint) :
  In c (projectedPoints s ideas width height) ->
  exists q, In q (points ideas) /\ c = spread q (project s q width height).
Proof.
  intro H. unfold projectedPoints in H.
  apply (Permutation_in _ (Array_sort_perm (@pp_zIndex real_number) _)) in H.
  apply in_map_iff in H as (q & <- & Hq). now exists q.
Qed.

(** The lookup of the center among the projected points always succeeds,
    and the center it finds is drawn at the middle of the viewport, at
    scale 1, in every view: the connection lines start there. *)
Theorem centerPoint_is_viewport_center (s : State) (ideas : list Idea)
    (width height : R) :
  exists c, centerPoint s ideas width height = Some c /\
            pp_id c = "center"%string /\
            pp_x c = width / 2 /\ pp_y c = height / 2 /\
            pp_scale c = 1 /\ pp_rawZ c = 0.
Proof.
  unfold centerPoint.
  destruct (find _ _) as [c|] eqn:E.
  - exists c. split; [reflexivity|].
    apply find_some in E as [Hin Hc].
    apply rendered_origin in Hin as (q & Hq & ->).
    rewrite points_satellites in Hq. destruct Hq as [<-|Hq].
    + split; [reflexivity|].
      pose proof (proj1 (project_center s width height)) as Hs.
      cbn -[sqrt cos sin PI] in Hs |- *.
      repeat split; try (unfold Rdiv; ring). exact Hs.
    + apply satellites_In in Hq as (j & it & _ & ->). discriminate Hc.
  - exfalso.
    assert (Hin : In center (points ideas))
      by (rewrite points_satellites; now left).
    apply (rendered_In s ideas width height) in Hin.
    pose proof (find_none _ _ E _ Hin) as Hc. discriminate Hc.
Qed.

Lemma satellites_ids (count : nat) (its : list Idea) :
  forall i, map id (satellites count i its) = map idea_id its.
Proof.
  induction its as [|it its IH]; intro i; cbn; [reflexivity|].
  now rewrite IH.
Qed.

(** The render list has one entry per item plus the center, and its ids are
    the item ids and ["center"], each as often as in the input. *)
Theorem render_list_entries (s : State) (ideas : list Idea) (width height : R) :
  List.length (projectedPoints s ideas width height) = S (List.length ideas) /\
  Permutation (map pp_id (projectedPoints s ideas width height))
              ("center"%string :: map idea_id ideas).
Proof.
  pose proof (Array_sort_perm (@pp_zIndex real_number)
    (map (fun p => spread p (project s p width height)) (points ideas))) as Hperm.
  unfold projectedPoints.
  split.
  - etransitivity; [exact (Permutation_length Hperm)|].
    rewrite length_map, points_satellites.
    cbn. now rewrite satellites_length.
  - eapply perm_trans; [exact (Permutation_map pp_id Hperm)|].
    rewrite map_map. cbn [pp_id spread].
    rewrite points_satellites. cbn [map id center].
    change (map (fun p : Point3D => id p)) with (map (@id real_number)).
    now rewrite satellites_ids.
Qed.

Lemma Rltb_lt (a b : R) : Rltb a b = true -> a < b.
Proof. unfold Rltb. destruct (Rlt_dec a b); [trivial|discriminate]. Qed.

(** A node flagged [isBehind] has a negative rotated depth: as long as it is
    in front of the focal plane, its perspective scale is above 1 and its
    z-index at least 1000, so the faded nodes are the enlarged ones, stacked
    at or above the center. *)
Theorem behind_flag_marks_enlarged_nodes (s : State) (p : Point3D)
    (width height : R) :
  0 <= zoomScale s ->
  0 < 900 + proj_rawZ (project s p width height) ->
  isBehind s (spread p (project s p width height)) = true ->
  1 < pp_scale (spread p (project s p width height)) /\
  1000 <= pp_zIndex (spread p (project s p width height)).
Proof.
  intros Hz Hd Hb. unfold isBehind in Hb. apply Rltb_lt in Hb.
  cbn [pp_rawZ pp_scale pp_zIndex spread] in *.
  set (r := proj_rawZ (project s p width height)) in *.
  change (proj_scale (project s p width height)) with (900 / (900 + r)).
  change (proj_zIndex (project s p width height))
    with (IZR (Zfloor (900 / (900 + r) * 1000))).
  change (r < (0 - 100) * zoomScale s) in Hb.
  assert (Hr : r < 0) by nra.
  assert (Hs : 1 < 900 / (900 + r)).
  { apply Rmult_lt_reg_r with (900 + r); [exact Hd|].
    unfold Rdiv. rewrite Rmult_assoc, Rinv_l by lra. lra. }
  split; [exact Hs|].
  apply IZR_le, Zfloor_lub. lra.
Qed.

(** *** The globe wireframe *)

Definition coords (p : @Point3D real_number) : R * R * R := (x p, y p, z p).

Lemma longitude_on_sphere (i : nat) (p : Point3D) :
  In p (longitude_line i) -> x p * x p + y p * y p + z p * z p = 420 * 420.
Proof.
  unfold longitude_line. intro H. apply in_map_iff in H as (j & <- & _).
  unfold wire_point. cbn [x y z].
  change (@BASE_RADIUS real_number) with 420.
  cbn [nmul real_number Math_sin Math_cos].
  match goal with |- context [cos ?a * 420] => fail | |- context [420 * cos ?a] =>
    set (ph := a) end.
  match goal with |- context [420 * sin ph * cos ?a] => set (th := a) end.
  pose proof (sin2_cos2 ph) as Hp. pose proof (sin2_cos2 th) as Ht.
  unfold Rsqr in Hp, Ht.
  replace (420 * sin ph * cos th * (420 * sin ph * cos th)
           + 420 * cos ph * (420 * cos ph)
           + 420 * sin ph * sin th * (420 * sin ph * sin th))
    with (420 * 420 * (sin ph * sin ph * (sin th * sin th + cos th * cos th)
                       + cos ph * cos ph)) by ring.
  rewrite Ht, Rmult_1_r, Hp. ring.
Qed.

Lemma latitude_on_sphere (level : R) (idx : nat) (p : Point3D) :
  -1 <= level <= 1 ->
  In p (latitude_line level idx) ->
  y p = level * 420 /\ x p * x p + y p * y p + z p * z p = 420 * 420.
Proof.
  intro Hl. unfold latitude_line. intro H. apply in_map_iff in H as (j & <- & _).
  unfold wire_point. cbn [x y z].
  change (@BASE_RADIUS real_number) with 420.
  cbn [nmul nsub real_number Math_sin Math_cos Math_sqrt].
  split; [reflexivity|].
  assert (Hpos : 0 <= 420 * 420 - level * 420 * (level * 420)) by nra.
  pose proof (sqrt_sqrt _ Hpos) as Hr.
  set (r := sqrt (420 * 420 - level * 420 * (level * 420))) in *.
  match goal with |- context [r * cos ?a] => set (th := a) end.
  pose proof (sin2_cos2 th) as Ht. unfold Rsqr in Ht.
  replace (r * cos th * (r * cos th) + level * 420 * (level * 420)
           + r * sin th * (r * sin th))
    with (r * r * (sin th * sin th + cos th * cos th)
          + level * 420 * (level * 420)) by ring.
  rewrite Ht, Hr. ring.
Qed.

Lemma globeLines_cases (line : list Point3D) :
  In line globeLines ->
  (exists i, line = longitude_line i) \/
  (exists level idx, -1 <= level <= 1 /\ line = latitude_line level idx).
Proof.
  unfold globeLines. intro H. apply in_app_or in H as [H|H].
  - apply in_map_iff in H as (i & <- & _). left. now exists i.
  - right. apply in_map_iff in H as ([idx level] & <- & H).
    exists level, idx. split; [|reflexivity].
    cbn in H. destruct H as [H|[H|[H|[]]]]; injection H as _ <-; lra.
Qed.

(** Every point of the wireframe (6 meridians, 3 parallels) lies on the
    sphere of radius [BASE_RADIUS] the satellites are laid out on. *)
Theorem wireframe_on_sphere (line : list Point3D) (p : Point3D) :
  In line globeLines -> In p line ->
  x p * x p + y p * y p + z p * z p = BASE_RADIUS * BASE_RADIUS.
Proof.
  intros Hl Hp. change (@BASE_RADIUS real_number) with 420.
  destruct (globeLines_cases Hl) as [(i & ->)|(level & idx & Hlev & ->)].
  - eapply longitude_on_sphere; eassumption.
  - eapply latitude_on_sphere; eassumption.
Qed.

(** A meridian: 21 points from the north pole to the south pole. *)
Definition meridian (line : list Point3D) : Prop :=
  List.length line = 21%nat /\
  hd_error (map coords line) = Some (0, 420, 0) /\
  last (map coords line) (0, 0, 0) = (0, -420, 0).

(** A parallel: 31 points at one height, the last one on the first. *)
Definition parallel (height : R) (line : list Point3D) : Prop :=
  List.length line = 31%nat /\
  Forall (fun p => y p = height) line /\
  hd_error (map coords line) = Some (last (map coords line) (0, 0, 0)).

Lemma longitude_line_meridian (i : nat) : meridian (longitude_line i).
Proof.
  unfold meridian, longitude_line. rewrite length_map, length_seq.
  split; [reflexivity|]. rewrite map_map.
  cbn -[sqrt cos sin PI Z.of_nat String_of_nat append].
  change (IZR (Z.of_nat 0)) with 0. change (IZR (Z.of_nat 20)) with 20.
  change (IZR (Z.of_nat 420)) with 420.
  replace (0 / 20 * PI) with 0 by lra.
  replace (20 / 20 * PI) with PI by lra.
  rewrite sin_0, cos_0, sin_PI, cos_PI.
  unfold coords, wire_point. cbn [x y z].
  split; repeat f_equal; ring.
Qed.

Lemma latitude_line_parallel (level : R) (idx : nat) :
  parallel (level * 420) (latitude_line level idx).
Proof.
  unfold parallel, latitude_line. rewrite length_map, length_seq.
  split; [reflexivity|]. split.
  - apply Forall_forall. intros p H. apply in_map_iff in H as (j & <- & _).
    reflexivity.
  - rewrite map_map.
    cbn -[sqrt cos sin PI Z.of_nat String_of_nat append].
    change (IZR (Z.of_nat 0)) with 0. change (IZR (Z.of_nat 30)) with 30.
    change (IZR (Z.of_nat 2)) with 2.
    replace (0 / 30 * PI * 2) with 0 by lra.
    replace (30 / 30 * PI * 2) with (2 * PI) by lra.
    rewrite sin_0, cos_0, sin_2PI, cos_2PI. reflexivity.
Qed.

(** The wireframe is made of 6 meridians, each running in 21 points from
    the north pole [(0, 420, 0)] to the south pole [(0, -420, 0)], followed
    by 3 parallels at heights -210, 0 and 210, each a closed loop of 31
    points. *)
Theorem wireframe_shape :
  List.length globeLines = 9%nat /\
  Forall meridian (firstn 6 globeLines) /\
  Forall2 parallel [-210; 0; 210] (skipn 6 globeLines).
Proof.
  split; [reflexivity|]. split.
  - change (firstn 6 globeLines) with (map longitude_line (seq 0 6)).
    apply Forall_map, Forall_forall. intros i _. apply longitude_line_meridian.
  - change (skipn 6 globeLines)
      with [latitude_line (0 - 5 / 10) 0; latitude_line 0 1; latitude_line (5 / 10) 2].
    constructor; [|constructor; [|constructor; [|constructor]]].
    + replace (-210) with ((0 - 5 / 10) * 420) by lra. apply latitude_line_parallel.
    + replace 0 with (0 * 420) at 1 by lra. apply latitude_line_parallel.
    + replace 210 with (5 / 10 * 420) by lra. apply latitude_line_parallel.
Qed.

(** *** The theorems of this part at concrete inputs *)

Definition pointer_noise : list (@Event real_number) :=
  [MouseDown 1 2; MouseMove 30 40; MouseUp; Frame; MouseMove 5 6].

Lemma inspecting_A_ignores_pointer : run inspecting_A pointer_noise = inspecting_A.
Proof.
  apply (@inspecting_ignores_pointer real_number inspecting_A pointer_noise);
    reflexivity.
Defined.

Lemma inspect_A_then_background :
  selectedIdea (step start (NodeClick None (Some ideaA))) = Some ideaA /\
  flags (step start (NodeClick None (Some ideaA))) = (false, false, true) /\
  run start [NodeClick None (Some ideaA); BackgroundClick] = start.
Proof.
  apply (@inspect_then_dismiss real_number start ideaA BackgroundClick);
    reflexivity.
Defined.

Lemma click_second_of_two :
  exists p, nth_error (points [ideaA; ideaB]) 2 = Some p /\
            id p = idea_id ideaB /\
            selectedIdea (handleNodeClick (isCenter p) (idea p) inspecting_A)
              = Some ideaB /\
            autoRotate (handleNodeClick (isCenter p) (idea p) inspecting_A) = false.
Proof.
  apply (@node_click_selects_item real_number inspecting_A [ideaA; ideaB] 1 ideaB).
  reflexivity.
Defined.

Lemma press_release_at_start :
  flags (step start (MouseDown 10 20)) = (false, true, false) /\
  animate (step start (MouseDown 10 20)) = step start (MouseDown 10 20) /\
  run start [MouseDown 10 20; MouseUp]
    = setLastMouse {| mouse_x := 10; mouse_y := 20 |} start.
Proof.
  apply (@press_release real_number start 10 20). reflexivity.
Defined.

(** The drag of the specification: 100 pixels to the right, in two moves. *)
Lemma drag_100_right :
  let s' := run start (MouseDown 10 20 :: moves [(60, 20); (110, 20)] ++ [MouseUp]) in
  rot_y (rotation s')
    = rot_y (rotation start) + (fst (last [(60, 20); (110, 20)] (10, 20)) - 10) * 0.005 /\
  rot_x (rotation s')
    = rot_x (rotation start) - (snd (last [(60, 20); (110, 20)] (10, 20)) - 20) * 0.005 /\
  zoomScale s' = zoomScale start /\
  AutoRotating s' = true.
Proof.
  apply (drag_gesture start 10 20 [(60, 20); (110, 20)]). reflexivity.
Defined.

Lemma scale_bounds_at_start :
  0 < 900 + proj_rawZ (project start (satellite 2 1 ideaB) 800 600) /\
  900 / (900 + 420 * zoomScale start)
    <= proj_scale (project start (satellite 2 1 ideaB) 800 600)
    <= 900 / (900 - 420 * zoomScale start).
Proof.
  apply (@perspective_scale_bounds start [ideaA; ideaB] (satellite 2 1 ideaB) 800 600).
  - cbn. lia.
  - right. right. left. reflexivity.
  - cbn. lra.
  - cbn. lra.
Defined.

(** Dragged down by 340 pixels and zoomed in as far as the wheel allows. *)
Definition tilted_and_zoomed : @State real_number :=
  run start [MouseDown 0 0; MouseMove 0 340; MouseUp; Wheel (-1500)].

Lemma tilted_and_zoomed_view :
  rot_x (rotation tilted_and_zoomed) = -1.5 /\ zoomScale tilted_and_zoomed = 2.5.
Proof.
  split.
  - cbn. lra.
  - unfold tilted_and_zoomed. cbn [run fold_left step].
    rewrite handleWheel_zoom. cbn. unfold clamp.
    destruct (Rlt_dec _ _) as [H|H]; [lra|].
    destruct (Rlt_dec _ _) as [H'|H']; lra.
Qed.

Lemma sin_tilted : sin (-1.5) <= -0.99.
Proof.
  replace (-1.5) with (- (1.5)) by lra. rewrite sin_neg.
  assert (Hpi : 1.5 <= PI) by (pose proof PI2_1; lra).
  destruct (SIN 1.5 ltac:(lra) Hpi) as [Hlb _].
  assert (H : 0.99 <= sin_lb 1.5)
    by (unfold sin_lb, sin_approx, sum_f_R0, sin_term; simpl; lra).
  lra.
Qed.

Lemma tilted_and_zoomed_past_focal_plane :
  900 + 420 * zoomScale tilted_and_zoomed * sin (rot_x (rotation tilted_and_zoomed)) < 0.
Proof.
  destruct tilted_and_zoomed_view as [-> ->]. pose proof sin_tilted. lra.
Qed.

Lemma negative_scale_reached :
  exists p, In p (projectedPoints tilted_and_zoomed [ideaA; ideaB] 800 600) /\
            pp_id p = idea_id ideaA /\ pp_idea p = Some ideaA /\
            pp_scale p < 0.
Proof.
  apply (@negative_scale_when_zoomed_in tilted_and_zoomed [ideaA; ideaB] ideaA 800 600).
  - cbn. lia.
  - reflexivity.
  - exact tilted_and_zoomed_past_focal_plane.
Defined.

Lemma behind_flag_from_above :
  1 < pp_scale (spread (satellite 2 0 ideaA)
                  (project seen_from_above (satellite 2 0 ideaA) 800 600)) /\
  1000 <= pp_zIndex (spread (satellite 2 0 ideaA)
                       (project seen_from_above (satellite 2 0 ideaA) 800 600)).
Proof.
  assert (Hr : proj_rawZ (project seen_from_above (satellite 2 0 ideaA) 800 600) = -420).
  { rewrite first_satellite_is_pole by lia. cbn -[sqrt cos sin PI].
    rewrite cos_0, sin_0, cos_neg, sin_neg, cos_PI2, sin_PI2. lra. }
  apply (@behind_flag_marks_enlarged_nodes seen_from_above (satellite 2 0 ideaA) 800 600).
  - cbn. lra.
  - rewrite Hr. lra.
  - unfold isBehind. cbn [pp_rawZ spread]. rewrite Hr.
    apply Rltb_true. cbn. lra.
Defined.

End ExactEngine.

(** * The idea service ([geminiService])

    The text of a model response is a JavaScript string: a sequence of
    UTF-16 code units. *)

Module GeminiService.

Local Open Scope N_scope.

Definition code_unit : Type := N.
Definition text : Type := list code_unit.

Definition backtick : code_unit := 96.
Definition line_feed : code_unit := 10.

(** ["```json"], ["```"] and ["json"] *)
Definition fence_json : text := [96; 96; 96; 106; 115; 111; 110].
Definition fence : text := [96; 96; 96].
Definition json_tag : text := [106; 115; 111; 110].

Fixpoint starts_with (pattern s : text) : bool :=
  match pattern, s with
  | [], _ => true
  | _ :: _, [] => false
  | p :: pattern', c :: s' => (p =? c) && starts_with pattern' s'
  end.

(** [str.replace(/```json\n?|\n?```/g, "")].  The text is scanned from the
    left; at each position the first alternative is tried before the second
    and [\n?] takes the line feed when there is one; a match is dropped and
    the scan resumes behind it.  [skip] counts the code units of the current
    match that are still to be dropped. *)
Fixpoint remove_fences (skip : nat) (s : text) : text :=
  match s with
  | [] => []
  | c :: rest =>
      match skip with
      | S k => remove_fences k rest
      | O =>
          if starts_with fence_json s
          then remove_fences (if starts_with [line_feed] (skipn 7 s) then 7 else 6) rest
          else if starts_with (line_feed :: fence) s then remove_fences 3 rest
          else if starts_with fence s then remove_fences 2 rest
          else c :: remove_fences 0 rest
      end
  end.

(** White space and line terminators of ECMAScript, which [trim] strips. *)
Definition is_white_space (c : code_unit) : bool :=
  existsb (N.eqb c)
    [9; 10; 11; 12; 13; 32; 160; 5760; 8192; 8193; 8194; 8195; 8196; 8197;
     8198; 8199; 8200; 8201; 8202; 8232; 8233; 8239; 8287; 12288; 65279].

Fixpoint trimStart (s : text) : text :=
  match s with
  | [] => []
  | c :: rest => if is_white_space c then trimStart rest else s
  end.

Definition trimEnd (s : text) : text := rev (trimStart (rev s)).

Definition trim (s : text) : text := trimEnd (trimStart s).

Definition cleanJsonString (str : text) : text := trim (remove_fences 0 str).

(** ** From parsed items to ideas *)

Local Open Scope string_scope.

Record ParsedItem : Type := {
  item_phrase : string;
  item_category : string;
  item_description : string
}.

(** [`idea-${Date.now()}-${index}`] *)
Definition idea_key (now index : nat) : string :=
  "idea-" ++ String_of_nat now ++ "-" ++ String_of_nat index.

(** [parsed.map((item, index) => ({id: ..., phrase: item.phrase, ...}))];
    [clock index] is what [Date.now()] returns in the call for [index]. *)
Fixpoint to_ideas (clock : nat -> nat) (index : nat) (parsed : list ParsedItem)
  : list Idea :=
  match parsed with
  | [] => []
  | item :: rest =>
      {| idea_id := idea_key (clock index) index;
         phrase := item_phrase item;
         category := item_category item;
         description := item_description item |}
      :: to_ideas clock (S index) rest
  end.

End GeminiService.

Module GeminiProps.
Import GeminiService.

(** *** Fences *)

Section Fences.
Local Open Scope N_scope.

Lemma starts_with_backtick (c : code_unit) (pattern s : text) :
  c <> backtick -> starts_with (backtick :: pattern) (c :: s) = false.
Proof.
  intro H. cbn [starts_with].
  destruct (N.eqb_spec backtick c) as [E|E]; [now elim H|reflexivity].
Qed.

Lemma starts_with_fence_plain (s tail : text) :
  ~ In backtick s -> starts_with fence (s ++ line_feed :: tail) = false.
Proof.
  intro H. destruct s as [|c s]; [reflexivity|].
  apply starts_with_backtick. intro E. apply H. now left.
Qed.

Lemma remove_fences_step (c : code_unit) (rest : text) :
  c <> backtick ->
  starts_with fence rest = false ->
  remove_fences 0 (c :: rest) = c :: remove_fences 0 rest.
Proof.
  intros Hc Hrest. cbn [remove_fences].
  unfold fence_json. rewrite (starts_with_backtick _ _ Hc).
  change (starts_with (line_feed :: fence) (c :: rest))
    with ((line_feed =? c) && starts_with fence rest).
  rewrite Hrest, andb_false_r.
  unfold fence. now rewrite (starts_with_backtick _ _ Hc).
Qed.

Lemma remove_fences_plain (s : text) :
  ~ In backtick s -> remove_fences 0 s = s.
Proof.
  induction s as [|c s IH]; intro H; [reflexivity|].
  rewrite remove_fences_step.
  - rewrite IH; [reflexivity|]. intro E. apply H. now right.
  - intro E. apply H. now left.
  - destruct s as [|d s]; [reflexivity|].
    apply starts_with_backtick. intro E. apply H. right. now left.
Qed.

Lemma remove_fences_until_close (body : text) :
  ~ In backtick body ->
  remove_fences 0 (body ++ line_feed :: fence) = body.
Proof.
  induction body as [|c body IH]; intro H; [reflexivity|].
  cbn [app]. rewrite remove_fences_step.
  - rewrite IH; [reflexivity|]. intro E. apply H. now right.
  - intro E. apply H. now left.
  - apply starts_with_fence_plain. intro E. apply H. now right.
Qed.

Lemma trimStart_keeps (u w : text) (c : code_unit) :
  is_white_space c = false ->
  trimStart (u ++ c :: w) = trimStart u ++ c :: w.
Proof.
  intro Hc. induction u as [|d u IH]; cbn [app trimStart].
  - now rewrite Hc.
  - destruct (is_white_space d); [exact IH|reflexivity].
Qed.

Lemma trimEnd_after (a : text) (c : code_unit) (b : text) :
  is_white_space c = false ->
  trimEnd (a ++ c :: b) = a ++ c :: trimEnd b.
Proof.
  intro Hc. unfold trimEnd.
  rewrite rev_app_distr. cbn [rev]. rewrite <- app_assoc. cbn [app].
  rewrite trimStart_keeps by exact Hc. rewrite rev_app_distr. cbn [rev].
  now rewrite rev_involutive, <- app_assoc.
Qed.

(** A response without a backtick is only trimmed. *)
Theorem cleanJsonString_plain (str : text) :
  ~ In backtick str -> cleanJsonString str = trim str.
Proof.
  intro H. unfold cleanJsonString. now rewrite remove_fences_plain.
Qed.

(** A response wrapped in a [json] code fence (the fence, a line feed, a
    body without backticks, a line feed, the closing fence) is cleaned to its
    trimmed body. *)
Theorem cleanJsonString_fenced (body : text) :
  ~ In backtick body ->
  cleanJsonString (fence_json ++ line_feed :: body ++ line_feed :: fence)
  = trim body.
Proof.
  intro H. unfold cleanJsonString.
  change (remove_fences 0 (fence_json ++ line_feed :: body ++ line_feed :: fence))
    with (remove_fences 0 (body ++ line_feed :: fence)).
  now rewrite remove_fences_until_close.
Qed.

(** When a line feed comes right before the opening [json] fence, the second
    alternative of the pattern matches first, at the line feed: the
    backticks go and the [json] tag stays, at the head of the cleaned text. *)
Theorem cleanJsonString_fence_after_line_feed (rest : text) :
  cleanJsonString (line_feed :: fence_json ++ rest)
  = json_tag ++ trimEnd (remove_fences 0 rest).
Proof.
  unfold cleanJsonString, trim.
  change (remove_fences 0 (line_feed :: fence_json ++ rest))
    with ([106; 115; 111] ++ 110 :: remove_fences 0 rest).
  change (trimStart ([106; 115; 111] ++ 110 :: remove_fences 0 rest))
    with ([106; 115; 111] ++ 110 :: remove_fences 0 rest).
  now rewrite trimEnd_after.
Qed.

End Fences.

(** *** Keys *)

Section Keys.
Local Open Scope string_scope.

Fixpoint no_dash (s : string) : Prop :=
  match s with
  | EmptyString => True
  | String c rest => c <> "-"%char /\ no_dash rest
  end.

Lemma string_of_uint_no_dash (d : Decimal.uint) :
  no_dash (DecimalString.NilEmpty.string_of_uint d).
Proof. induction d; cbn; (split; [discriminate|assumption]) || exact I. Qed.

Lemma split_at_dash (u u' v v' : string) :
  no_dash u -> no_dash u' ->
  u ++ "-" ++ v = u' ++ "-" ++ v' -> u = u' /\ v = v'.
Proof.
  revert u'. induction u as [|c u IH]; intros [|c' u'] Hu Hu' E; cbn in *.
  - injection E as E. now split.
  - injection E as E _. destruct Hu' as [Hc _]. now elim Hc.
  - injection E as E _. destruct Hu as [Hc _]. now elim Hc.
  - injection E as -> E. destruct Hu as [_ Hu], Hu' as [_ Hu'].
    destruct (IH u' Hu Hu' E) as [-> ->]. now split.
Qed.

Lemma String_of_nat_inj (n n' : nat) :
  String_of_nat n = String_of_nat n' -> n = n'.
Proof.
  unfold String_of_nat. intro E.
  apply DecimalNat.Unsigned.to_uint_inj.
  assert (H : Some (Nat.to_uint n) = Some (Nat.to_uint n'))
    by (rewrite <- !DecimalString.NilEmpty.usu; now rewrite E).
  now injection H.
Qed.

Lemma idea_key_index (now now' index index' : nat) :
  idea_key now index = idea_key now' index' -> index = index'.
Proof.
  unfold idea_key. intro E. cbn in E. injection E as E.
  apply split_at_dash in E as [_ E];
    try apply string_of_uint_no_dash.
  now apply String_of_nat_inj.
Qed.

Lemma to_ideas_keys (clock : nat -> nat) (parsed : list ParsedItem) :
  forall index,
    map idea_id (to_ideas clock index parsed)
    = map (fun i => idea_key (clock i) i) (seq index (List.length parsed)).
Proof.
  induction parsed as [|item parsed IH]; intro index; cbn; [reflexivity|].
  now rewrite IH.
Qed.

Lemma to_ideas_keys_distinct (clock : nat -> nat) (parsed : list ParsedItem) :
  NoDup (map idea_id (to_ideas clock 0 parsed)) /\
  ~ In "center" (map idea_id (to_ideas clock 0 parsed)).
Proof.
  rewrite to_ideas_keys. split.
  - apply Finite.Injective_map_NoDup; [|apply seq_NoDup].
    intros i j E. exact (idea_key_index E).
  - intro H. apply in_map_iff in H as (i & E & _). discriminate E.
Qed.

(** The ideas made from a parsed response have pairwise distinct ids,
    whatever the clock returns from call to call, and one item each, with its
    phrase. *)
Theorem generated_ideas_distinct_ids (clock : nat -> nat) (parsed : list ParsedItem) :
  NoDup (map idea_id (to_ideas clock 0 parsed)) /\
  map phrase (to_ideas clock 0 parsed) = map item_phrase parsed.
Proof.
  split; [apply to_ideas_keys_distinct|].
  generalize 0%nat. induction parsed as [|item parsed IH]; intro k; cbn;
    [reflexivity|now rewrite IH].
Qed.

(** Laid out, the ideas of a response give nodes with pairwise distinct ids,
    the center included: the render keys never collide. *)
Theorem layout_keys_distinct {N : JSNumber} (clock : nat -> nat)
    (parsed : list ParsedItem) :
  NoDup (map id (points (to_ideas clock 0 parsed))).
Proof.
  rewrite points_satellites. cbn [map id center].
  destruct (to_ideas_keys_distinct clock parsed) as [Hnd Hc].
  assert (E : forall its k,
             map id (satellites (List.length (to_ideas clock 0 parsed)) k its)
             = map idea_id its).
  { induction its as [|it its IH]; intro k; cbn; [reflexivity|now rewrite IH]. }
  rewrite E. now constructor.
Qed.

End Keys.

End GeminiProps.

(** * The application shell ([src/App.tsx]) *)

Module App.

Local Open Scope string_scope.

Inductive ViewMode : Type := View3d | ViewGrid.

Section Shell.

(** [String.prototype.trim], of the host. *)
Variable String_trim : string -> string.

Definition blank (term : string) : bool :=
  match String_trim term with EmptyString => true | _ => false end.

(** The state hooks of [App]; [in_flight] counts the calls of
    [generateIdeas] that have not settled yet. *)
Record AppState : Type := {
  keyword : string;
  ideas : list Idea;
  loading : bool;
  error : string;
  searchedKeyword : string;
  viewMode : ViewMode;
  in_flight : nat
}.

Definition mounted_App : AppState :=
  {| keyword := ""; ideas := []; loading := false; error := "";
     searchedKeyword := ""; viewMode := View3d; in_flight := 0 |}.

(** [performSearch], up to its [await]. *)
Definition performSearch (term : string) (s : AppState) : AppState :=
  if blank term then s
  else
    {| keyword := term; ideas := []; loading := true; error := "";
       searchedKeyword := term; viewMode := viewMode s;
       in_flight := S (in_flight s) |}.

(** [performSearch], from the [await] on, when [generateIdeas] returns. *)
Definition performSearch_resolved (generatedIdeas : list Idea) (s : AppState)
  : AppState :=
  {| keyword := keyword s; ideas := generatedIdeas; loading := false;
     error := match generatedIdeas with
              | [] => "未能生成想法，请尝试其他关键词。"
              | _ :: _ => error s
              end;
     searchedKeyword := searchedKeyword s; viewMode := viewMode s;
     in_flight := pred (in_flight s) |}.

(** [performSearch], from the [await] on, when [generateIdeas] throws. *)
Definition performSearch_rejected (s : AppState) : AppState :=
  {| keyword := keyword s; ideas := ideas s; loading := false;
     error := "生成失败，请稍后再试。";
     searchedKeyword := searchedKeyword s; viewMode := viewMode s;
     in_flight := pred (in_flight s) |}.

Definition handleGenerate (s : AppState) : AppState := performSearch (keyword s) s.

Definition handleSetAsCore (newKeyword : string) (s : AppState) : AppState :=
  performSearch newKeyword s.

Definition setKeyword (v : string) (s : AppState) : AppState :=
  {| keyword := v; ideas := ideas s; loading := loading s; error := error s;
     searchedKeyword := searchedKeyword s; viewMode := viewMode s;
     in_flight := in_flight s |}.

Definition setViewMode (m : ViewMode) (s : AppState) : AppState :=
  {| keyword := keyword s; ideas := ideas s; loading := loading s;
     error := error s; searchedKeyword := searchedKeyword s; viewMode := m;
     in_flight := in_flight s |}.

(** What is on the page. *)
Definition results_shown (s : AppState) : bool :=
  match ideas s with [] => false | _ :: _ => true end.

Definition map_shown (s : AppState) : bool :=
  results_shown s && match viewMode s with View3d => true | ViewGrid => false end.

Definition error_shown (s : AppState) : bool :=
  match error s with EmptyString => false | _ => true end.

(** [disabled={loading || !keyword.trim()}] *)
Definition submit_disabled (s : AppState) : bool :=
  loading s || blank (keyword s).

Inductive AppEvent : Type :=
| Type_keyword (v : string)          (* the input's onChange *)
| Submit                             (* the form's onSubmit *)
| SetAsCore (newKeyword : string)    (* the map's onSetAsCore *)
| Switch_view (m : ViewMode)         (* the two view buttons *)
| Resolved (generatedIdeas : list Idea)
| Rejected.

(** One event, as the page lets it happen: the form is not submitted
    through a disabled button, the map and the view buttons exist only while
    results are shown, and a call settles only if one is in flight. *)
Definition app_step (s : AppState) (e : AppEvent) : AppState :=
  match e with
  | Type_keyword v => setKeyword v s
  | Submit => if submit_disabled s then s else handleGenerate s
  | SetAsCore k => if map_shown s then handleSetAsCore k s else s
  | Switch_view m => if results_shown s then setViewMode m s else s
  | Resolved g =>
      match in_flight s with O => s | S _ => performSearch_resolved g s end
  | Rejected =>
      match in_flight s with O => s | S _ => performSearch_rejected s end
  end.

Definition app_run (s : AppState) (evs : list AppEvent) : AppState :=
  fold_left app_step evs s.

End Shell.

End App.

(** * The chat widget ([ChatWidget]) *)

Module ChatWidget.

Local Open Scope string_scope.

Inductive Role : Type := user | model.

Record ChatMessage : Type := {
  msg_id : string;
  role : Role;
  msg_text : string;
  isThinking : option bool
}.

(** [setMessages(prev => [...prev, msg])] *)
Definition append_message (msg : ChatMessage) (prev : list ChatMessage)
  : list ChatMessage :=
  prev ++ [msg].

(** [prev.map(msg => msg.id === modelMsgId ? { ...msg, text: fullText } : msg)] *)
Definition set_text (modelMsgId fullText : string) (prev : list ChatMessage)
  : list ChatMessage :=
  map (fun msg =>
         if String.eqb (msg_id msg) modelMsgId
         then {| msg_id := msg_id msg; role := role msg; msg_text := fullText;
                 isThinking := isThinking msg |}
         else msg) prev.

(** [content.text || ''] *)
Definition chunk_text (chunk : option string) : string :=
  match chunk with Some t => t | None => "" end.

(** The [for await] loop over the stream: [fullText] grows by each chunk and
    the message list is updated after each. *)
Fixpoint stream_loop (modelMsgId : string) (chunks : list (option string))
    (fullText : string) (messages : list ChatMessage)
  : string * list ChatMessage :=
  match chunks with
  | [] => (fullText, messages)
  | chunk :: rest =>
      let fullText' := fullText ++ chunk_text chunk in
      stream_loop modelMsgId rest fullText' (set_text modelMsgId fullText' messages)
  end.

(** [handleSend] when the stream opens and ends without an error: [input] is
    the text sent, [t0] and [t1] what [Date.now()] returns for the user
    message and for the model message. *)
Definition handleSend_messages (input : string) (t0 t1 : nat)
    (chunks : list (option string)) (messages : list ChatMessage)
  : list ChatMessage :=
  let userMsg := {| msg_id := String_of_nat t0; role := user;
                    msg_text := input; isThinking := None |} in
  let messages1 := append_message userMsg messages in
  let modelMsgId := String_of_nat (t1 + 1) in
  let messages2 :=
    append_message {| msg_id := modelMsgId; role := model; msg_text := "";
                      isThinking := None |} messages1 in
  snd (stream_loop modelMsgId chunks "" messages2).

End ChatWidget.

Module AppProps.
Import App.

Section Page.

Variable String_trim : string -> string.

(** What the page keeps to: one call in flight exactly while [loading];
    while loading, neither results nor an error; results and an error never
    together. *)
Definition settled (s : AppState) : Prop :=
  in_flight s = (if loading s then 1 else 0)%nat /\
  (loading s = true -> results_shown s = false /\ error_shown s = false) /\
  (results_shown s = true -> error_shown s = false).

Lemma app_step_settled (s : AppState) (e : AppEvent) :
  settled s -> settled (app_step String_trim s e).
Proof.
  unfold settled. intros (Hf & Hl & Hr).
  destruct s as [kw ids ld err sk vm fl]. cbn in *.
  destruct e as [v| |k|m|g|]; cbn.
  - auto.
  - unfold submit_disabled, handleGenerate, performSearch. cbn.
    destruct ld; cbn; [auto|].
    destruct (blank String_trim kw); cbn; [auto|].
    subst fl. repeat split; auto; discriminate.
  - unfold map_shown, handleSetAsCore, performSearch, results_shown. cbn.
    destruct ids as [|i ids]; cbn; [auto|].
    destruct vm; cbn; [|auto].
    destruct (blank String_trim k); cbn; [auto|].
    destruct ld; [destruct (Hl eq_refl) as [H _]; discriminate H|].
    subst fl. repeat split; auto; discriminate.
  - unfold results_shown. cbn. destruct ids; cbn; auto.
  - destruct fl as [|fl]; cbn; [auto|].
    destruct ld; [|discriminate Hf]. injection Hf as ->.
    destruct (Hl eq_refl) as [_ He].
    unfold results_shown, error_shown in *. cbn in *.
    destruct g; cbn; repeat split; auto; discriminate.
  - destruct fl as [|fl]; cbn; [auto|].
    destruct ld; [|discriminate Hf]. injection Hf as ->.
    destruct (Hl eq_refl) as [Hres _].
    unfold results_shown in *. cbn in *.
    repeat split; auto; try discriminate. intro H. rewrite Hres in H. discriminate H.
Qed.

(** Whatever the user does and however the calls settle, the page never
    has two calls of [generateIdeas] in flight, shows neither results (hence
    no map) nor an error while loading, and never shows results together
    with an error. *)
Theorem page_settled (evs : list AppEvent) :
  let s := app_run String_trim mounted_App evs in
  (in_flight s <= 1)%nat /\
  (loading s = true <-> in_flight s = 1%nat) /\
  (loading s = true -> results_shown s = false /\ map_shown s = false /\
                       error_shown s = false) /\
  (results_shown s = true -> error_shown s = false).
Proof.
  cbv zeta.
  assert (H : settled (app_run String_trim mounted_App evs)).
  { assert (H0 : settled mounted_App) by (repeat split; cbn; auto; discriminate).
    revert H0. generalize mounted_App.
    induction evs as [|e evs IH]; intros s Hs; [exact Hs|].
    cbn [app_run fold_left]. apply IH. now apply app_step_settled. }
  destruct H as (Hf & Hl & Hr).
  set (s := app_run String_trim mounted_App evs) in *.
  split; [rewrite Hf; destruct (loading s); lia|].
  split; [rewrite Hf; destruct (loading s); split; intro; congruence|].
  split; [|exact Hr].
  intro Hld. destruct (Hl Hld) as [H1 H2].
  unfold map_shown. rewrite H1. repeat split. exact H2.
Qed.

(** A "set as core" request from the map: with a blank phrase nothing
    changes, the map stays up; otherwise the search starts for that phrase
    and the map is taken down at once, until results arrive. *)
Theorem set_as_core_request (s : AppState) (newKeyword : string) :
  map_shown s = true ->
  let s' := app_step String_trim s (SetAsCore newKeyword) in
  if blank String_trim newKeyword
  then s' = s
  else map_shown s' = false /\ loading s' = true /\
       searchedKeyword s' = newKeyword /\ keyword s' = newKeyword /\
       forall g,
         ideas (app_step String_trim s' (Resolved g)) = g /\
         loading (app_step String_trim s' (Resolved g)) = false /\
         searchedKeyword (app_step String_trim s' (Resolved g)) = newKeyword.
Proof.
  intro Hm. cbv zeta. cbn [app_step]. rewrite Hm.
  unfold handleSetAsCore, performSearch.
  destruct (blank String_trim newKeyword); [reflexivity|].
  cbn. repeat split.
Qed.

End Page.

(** A host [trim] for ASCII text, to run the theorems on. *)
Definition ascii_space (c : ascii) : bool :=
  let n := nat_of_ascii c in
  ((9 <=? n) && (n <=? 13) || (n =? 32))%nat.

Fixpoint ascii_trimStart (s : string) : string :=
  match s with
  | EmptyString => EmptyString
  | String c rest => if ascii_space c then ascii_trimStart rest else s
  end.

Fixpoint string_rev (acc s : string) : string :=
  match s with
  | EmptyString => acc
  | String c rest => string_rev (String c acc) rest
  end.

Definition ascii_trim (s : string) : string :=
  string_rev "" (ascii_trimStart (string_rev "" (ascii_trimStart s))).

Definition showing_A : AppState :=
  app_run ascii_trim mounted_App
    [Type_keyword "letters"; Submit; Resolved [ExactProps.ideaA; ExactProps.ideaB]].

Lemma set_as_core_request_at_A :
  let s' := app_step ascii_trim showing_A (SetAsCore "A") in
  if blank ascii_trim "A"
  then s' = showing_A
  else map_shown s' = false /\ loading s' = true /\
       searchedKeyword s' = "A"%string /\ keyword s' = "A"%string /\
       forall g,
         ideas (app_step ascii_trim s' (Resolved g)) = g /\
         loading (app_step ascii_trim s' (Resolved g)) = false /\
         searchedKeyword (app_step ascii_trim s' (Resolved g)) = "A"%string.
Proof.
  apply (set_as_core_request ascii_trim showing_A "A"); reflexivity.
Defined.

End AppProps.

Module ChatProps.
Import ChatWidget.

Lemma string_app_nil_r (s : string) : (s ++ "")%string = s.
Proof. induction s as [|c s IH]; cbn; [reflexivity|now rewrite IH]. Qed.

Lemma string_app_assoc (s t u : string) :
  ((s ++ t) ++ u)%string = (s ++ t ++ u)%string.
Proof. induction s as [|c s IH]; cbn; [reflexivity|now rewrite IH]. Qed.

Lemma set_text_others (modelMsgId fullText : string) (messages : list ChatMessage) :
  ~ In modelMsgId (map msg_id messages) ->
  set_text modelMsgId fullText messages = messages.
Proof.
  unfold set_text.
  induction messages as [|m messages IH]; intro H; [reflexivity|].
  cbn [map]. destruct (String.eqb_spec (msg_id m) modelMsgId) as [E|E].
  - elim H. now left.
  - rewrite IH; [reflexivity|]. intro H'. apply H. now right.
Qed.

Lemma stream_loop_last (modelMsgId : string) (chunks : list (option string)) :
  forall (fullText : string) (before : list ChatMessage) (r : Role) (o : option bool),
    ~ In modelMsgId (map msg_id before) ->
    snd (stream_loop modelMsgId chunks fullText
           (before ++ [{| msg_id := modelMsgId; role := r; msg_text := fullText;
                          isThinking := o |}]))
    = before ++ [{| msg_id := modelMsgId; role := r;
                    msg_text := (fullText ++ String.concat ""%string (map chunk_text chunks))%string;
                    isThinking := o |}].
Proof.
  induction chunks as [|chunk chunks IH]; intros fullText before r o H.
  - cbn. now rewrite string_app_nil_r.
  - cbn [stream_loop map].
    unfold set_text at 1. rewrite map_app. fold (set_text modelMsgId (fullText ++ chunk_text chunk)%string before).
    rewrite set_text_others by exact H. cbn [map msg_id].
    rewrite String.eqb_refl. cbn [role isThinking].
    rewrite IH by exact H. f_equal. f_equal. f_equal.
    destruct chunks as [|c2 chunks]; cbn.
    + now rewrite !string_app_nil_r.
    + now rewrite string_app_assoc.
Qed.

(** One exchange whose stream ends without an error, when the id taken for
    the model message is new: the list grows by the user message and by one
    model message, whose text is the chunks put together (a chunk without
    text counting as empty); the earlier messages are as they were. *)
Theorem handleSend_appends_exchange (input : string) (t0 t1 : nat)
    (chunks : list (option string)) (messages : list ChatMessage) :
  (t0 <= t1)%nat ->
  ~ In (String_of_nat (t1 + 1)) (map msg_id messages) ->
  handleSend_messages input t0 t1 chunks messages
  = messages
    ++ [ {| msg_id := String_of_nat t0; role := user; msg_text := input;
            isThinking := None |};
         {| msg_id := String_of_nat (t1 + 1); role := model;
            msg_text := String.concat ""%string (map chunk_text chunks);
            isThinking := None |} ].
Proof.
  intros Ht Hnew. unfold handleSend_messages, append_message. cbv zeta.
  rewrite stream_loop_last.
  - rewrite <- app_assoc. reflexivity.
  - rewrite map_app. intro H. apply in_app_or in H as [H|[H|[]]].
    + now apply Hnew.
    + cbn in H. apply GeminiProps.String_of_nat_inj in H. lia.
Qed.

Definition welcome : ChatMessage :=
  {| msg_id := "welcome"%string; role := model; msg_text := "hello"%string; isThinking := None |}.

Lemma handleSend_after_welcome :
  handleSend_messages "hi"%string 41 48 [Some "Good "%string; None; Some "day"%string]
    [welcome]
  = [welcome]
    ++ [ {| msg_id := String_of_nat 41; role := user; msg_text := "hi"%string;
            isThinking := None |};
         {| msg_id := String_of_nat (48 + 1); role := model;
            msg_text := String.concat ""%string (map chunk_text [Some "Good "%string; None; Some "day"%string]);
            isThinking := None |} ].
Proof.
  apply handleSend_appends_exchange.
  - lia.
  - intros [H|[]]. discriminate H.
Defined.

End ChatProps.

(** * The theorems of the service and of the wireframe at concrete inputs *)

Module Samples.
Import GeminiService GeminiProps.

Local Open Scope N_scope.

(** ["[1]"] *)
Definition one_element_array : text := [91; 49; 93].

Lemma no_backtick_sample : ~ In backtick one_element_array.
Proof. intros [H|[H|[H|[]]]]; discriminate H. Qed.

Lemma cleanJsonString_plain_sample :
  cleanJsonString one_element_array = trim one_element_array.
Proof. apply cleanJsonString_plain. exact no_backtick_sample. Defined.

Lemma cleanJsonString_fenced_sample :
  cleanJsonString (fence_json ++ line_feed :: one_element_array ++ line_feed :: fence)
  = trim one_element_array.
Proof. apply cleanJsonString_fenced. exact no_backtick_sample. Defined.

(** What the three theorems say of the same array: fenced or not, it comes
    out as it is; after a leading line feed, it comes out behind [json]. *)
Example cleanJsonString_samples :
  cleanJsonString one_element_array = one_element_array /\
  cleanJsonString (fence_json ++ line_feed :: one_element_array ++ line_feed :: fence)
    = one_element_array /\
  cleanJsonString (line_feed :: fence_json ++ line_feed :: one_element_array
                   ++ line_feed :: fence)
    = json_tag ++ line_feed :: one_element_array.
Proof. repeat split. Qed.

Local Close Scope N_scope.

Definition first_wire_point : @Point3D Exact.real_number :=
  nth 0 (longitude_line 0) center.

Lemma wireframe_on_sphere_sample :
  (x first_wire_point * x first_wire_point
   + y first_wire_point * y first_wire_point
   + z first_wire_point * z first_wire_point
   = @BASE_RADIUS Exact.real_number * @BASE_RADIUS Exact.real_number)%R.
Proof.
  apply (@ExactEngine.wireframe_on_sphere (longitude_line 0) first_wire_point).
  - left. reflexivity.
  - left. reflexivity.
Defined.

(** A stand-in for the host's [Math.cos] and [Math.sin], which the zoom does
    not use. *)
Definition no_trig (v : float) : float := v.

Lemma float64_wheel_range_sample :
  (0.5 <=? zoomScale (@handleWheel (Float64.float_number no_trig no_trig) (-2000)
                        (@initial (Float64.float_number no_trig no_trig))))%float = true /\
  (zoomScale (@handleWheel (Float64.float_number no_trig no_trig) (-2000)
                (@initial (Float64.float_number no_trig no_trig))) <=? 2.5)%float = true.
Proof.
  apply (@Float64Props.float64_wheel_range no_trig no_trig). reflexivity.
Defined.

End Samples.
